(** * project-livewire: session registry, incremental summary coordinator
      and tool executor

    A shallow embedding of
      - [server/core/session.py]              (module [Session]),
      - [server/core/incremental_summary.py]  (module [Summary]),
      - [server/core/tool_handler.py]         (module [Tools]),
      - the parts of [server/config/config.py] they read (module [Config]),
        its flags of the environment (module [Environ]) and [get_secret]
        (module [Secrets]),
    followed by the properties of the specification that concern them and
    by further properties of the same code.

    Conventions of the embedding.
      - A Python [str] is a [string]; every character stands for the code
        point with the same number (0..255).
      - Python objects that are shared and mutated ([SessionState],
        [IncrementalSummaryManager]) live in a store indexed by locations;
        a reference is a location.
      - A call that can raise returns a [result]; only exceptions deriving
        from [Exception] are modelled (task cancellation is not).
      - Calls to the outside (text generation, live session, HTTP, clock) are
        answered by an environment given as an argument, and every call made
        is recorded in a trace of [event]s.
      - Readings of [time.time()] and the configured interval are integers
        in one unit (ticks of the clock).
      - Two invocations of [maybe_update] at once (module [Race]): a
        coroutine runs without interruption between its await points; the
        invocation that finds the lock held goes on at the re-check once the
        other has released the lock.
      - [logger] calls are left out. *)

From Stdlib Require Import ZArith.
From stdpp Require Import base option gmap strings list pretty.

Local Open Scope Z_scope.

(* ===================================================================== *)
(** * Python values, strings and exceptions                              *)
(* ===================================================================== *)

Module Py.

(** Values that travel in messages and JSON bodies.  A [dict] literal is an
    association list in insertion order. *)
#[warnings="-register-all"]
Inductive pyval : Type :=
| PNone
| PBool (b : bool)
| PInt (n : Z)
| PStr (s : string)
| PList (l : list pyval)
| PDict (d : list (string * pyval)).

(** Exceptions, by the classes the handlers of the program tell apart.
    The argument is [str(e)]. *)
Inductive exn : Type :=
| ConfigurationError (msg : string)
| ClientError (msg : string)
| OtherException (msg : string).

Definition str_of_exn (e : exn) : string :=
  match e with
  | ConfigurationError m | ClientError m | OtherException m => m
  end.

(** [isinstance(e, aiohttp.ClientError)] *)
Definition is_ClientError (e : exn) : bool :=
  match e with ClientError _ => true | _ => false end.

Inductive result (A : Type) : Type :=
| Ok (a : A)
| Raise (e : exn).
Arguments Ok {A} a.
Arguments Raise {A} e.

(** Truth value of a [str]: non-empty. *)
Definition truthy (s : string) : bool :=
  match s with EmptyString => false | String _ _ => true end.

(** Truth value of an [Optional[str]] ([None] and [""] are false). *)
Definition truthy_opt (o : option string) : bool :=
  match o with Some s => truthy s | None => false end.

(** [x or ""] for an [Optional[str]] *)
Definition or_empty (o : option string) : string :=
  match o with
  | Some s => if truthy s then s else ""
  | None => ""
  end.

(** [c.isspace()] for a code point below 256: TAB..CR, FS..US, space,
    NEL and NBSP. *)
Definition isspace (c : Ascii.ascii) : bool :=
  let n := Ascii.N_of_ascii c in
  ((9 <=? n) && (n <=? 13) || (28 <=? n) && (n <=? 32)
   || (n =? 133) || (n =? 160))%N.

Fixpoint lstrip (s : string) : string :=
  match s with
  | EmptyString => EmptyString
  | String c s' => if isspace c then lstrip s' else s
  end.

Fixpoint rstrip (s : string) : string :=
  match s with
  | EmptyString => EmptyString
  | String c s' =>
      let r := rstrip s' in
      if isspace c && negb (truthy r) then EmptyString else String c r
  end.

(** [s.strip()] *)
Definition strip (s : string) : string := rstrip (lstrip s).

(** [sep.join(l)] *)
Definition join (sep : string) (l : list string) : string :=
  String.concat sep l.

(** Every key and every string that occurs in a value. *)
Fixpoint strings_of (v : pyval) : list string :=
  match v with
  | PNone | PBool _ | PInt _ => []
  | PStr s => [s]
  | PList l => concat (map strings_of l)
  | PDict d => concat (map (fun kv => fst kv :: strings_of (snd kv)) d)
  end.

End Py.
Import Py.

(* ===================================================================== *)
(** * config.py                                                          *)
(* ===================================================================== *)

Module Config.

(** The module-level settings read by the summary coordinator.  They are
    taken from the process environment when the module is loaded, so they
    are arguments of the embedding; [defaults] are the values used when the
    environment sets none of them. *)
Record Settings : Type := {
  INCREMENTAL_UPDATES_ENABLED : bool;
  INCREMENTAL_SUMMARY_INTERVAL_SEC : Z;
  INCREMENTAL_SUMMARY_MAX_TOKENS : Z;
  INCREMENTAL_SUMMARY_MODEL : string;
  INCREMENTAL_SUMMARY_PROMPT : string;
}.

Definition LF : string := String (Ascii.ascii_of_nat 10) EmptyString.

Definition default_prompt_raw : string :=
  LF +:+ "You are maintaining a running, compact summary of a presentation so far."
  +:+ LF +:+ "- Summarize only what has been presented (no hallucinations)."
  +:+ LF +:+ "- Preserve key claims, evidence, examples, and references to visuals if mentioned."
  +:+ LF +:+ "- Prefer bullet points. Keep under ~1000 words."
  +:+ LF +:+ "Return only the summary text (no preamble)."
  +:+ LF.

Definition defaults : Settings := {|
  INCREMENTAL_UPDATES_ENABLED := true;
  INCREMENTAL_SUMMARY_INTERVAL_SEC := 60;
  INCREMENTAL_SUMMARY_MAX_TOKENS := 1024;
  INCREMENTAL_SUMMARY_MODEL := "gemini-2.5-flash";
  INCREMENTAL_SUMMARY_PROMPT := strip default_prompt_raw;
|}.

(** [class ApiConfig]: [use_vertex] is fixed at construction, [api_key] is
    filled in by [initialize]. *)
Record ApiConfig : Type := {
  use_vertex : bool;
  api_key : option string;
}.

(** What [ApiConfig.initialize] reads from outside the process:
    [get_secret('GOOGLE_API_KEY')] and [os.getenv('GOOGLE_API_KEY')]. *)
Record SecretEnv : Type := {
  get_secret_GOOGLE_API_KEY : result string;
  getenv_GOOGLE_API_KEY : option string;
}.

(** [ApiConfig.initialize].  The new [api_config] is returned also when
    the call raises: the assignment to [api_key] precedes the [raise]. *)
Definition initialize (env : SecretEnv) (self : ApiConfig)
  : ApiConfig * result unit :=
  if negb (use_vertex self) then
    match get_secret_GOOGLE_API_KEY env with
    | Ok k => ({| use_vertex := use_vertex self; api_key := Some k |}, Ok tt)
    | Raise _ =>
        let self' := {| use_vertex := use_vertex self;
                        api_key := getenv_GOOGLE_API_KEY env |} in
        if negb (truthy_opt (api_key self')) then
          (self', Raise (ConfigurationError
             "No API key available from Secret Manager or environment"))
        else (self', Ok tt)
    end
  else (self, Ok tt).

End Config.
Import Config.

(* ===================================================================== *)
(** * The objects: session state and summary manager                     *)
(* ===================================================================== *)

(** Locations of objects in the store, and opaque handles of foreign objects
    (tasks, audio streams, live sessions). *)
Definition loc := nat.
Definition handle := nat.

(** [@dataclass class SessionState] *)
Record SessionState : Type := {
  is_receiving_response : bool;
  interrupted : bool;
  current_tool_execution : option handle;
  current_audio_stream : option handle;
  genai_session : option handle;
  received_model_response : bool;
}.

(** [SessionState()]: the field defaults of the dataclass. *)
Definition SessionState_default : SessionState := {|
  is_receiving_response := false;
  interrupted := false;
  current_tool_execution := None;
  current_audio_stream := None;
  genai_session := None;
  received_model_response := false;
|}.

(** The fields of an [IncrementalSummaryManager].  [session_state] is a
    reference; [_lock] is the state of the [asyncio.Lock] ([true]: held);
    [_last_update_ts] is a clock reading, in ticks of the clock. *)
Record IncrementalSummaryManager : Type := {
  session_state : loc;
  _lock : bool;
  _last_update_ts : Z;
  running_summary : string;
  transcript_buffer : list string;
  summary_part_id : string;
}.

(** The store: the objects of both classes, and the module-level dict
    [active_sessions] of session.py. *)
Record World : Type := {
  session_objs : gmap loc SessionState;
  manager_objs : gmap loc IncrementalSummaryManager;
  active_sessions : gmap string loc;
}.

Definition World_empty : World := {|
  session_objs := ∅; manager_objs := ∅; active_sessions := ∅;
|}.

(* ===================================================================== *)
(** * session.py                                                         *)
(* ===================================================================== *)

Module Session.

(** [create_session(session_id)]: returns the reference of the new
    object. *)
Definition create_session (session_id : string) (w : World) : loc * World :=
  let session := fresh (dom (session_objs w)) in
  (session,
   {| session_objs := <[session := SessionState_default]> (session_objs w);
      manager_objs := manager_objs w;
      active_sessions := <[session_id := session]> (active_sessions w) |}).

(** [get_session(session_id)] *)
Definition get_session (session_id : string) (w : World) : option loc :=
  active_sessions w !! session_id.

(** [remove_session(session_id)] *)
Definition remove_session (session_id : string) (w : World) : World :=
  if decide (is_Some (active_sessions w !! session_id)) then
    {| session_objs := session_objs w;
       manager_objs := manager_objs w;
       active_sessions := delete session_id (active_sessions w) |}
  else w.

(** A session has a summary state in [w] when some manager object refers
    to it. *)
Definition has_summary_state (w : World) (session : loc) : Prop :=
  ∃ k m, manager_objs w !! k = Some m ∧ session_state m = session.

End Session.

(* ===================================================================== *)
(** * incremental_summary.py                                             *)
(* ===================================================================== *)

Module Summary.

(** [IncrementalSummaryManager(session_state)]: the fields set by
    [__init__]. *)
Definition IncrementalSummaryManager_new (session_state : loc)
  : IncrementalSummaryManager := {|
  session_state := session_state;
  _lock := false;
  _last_update_ts := 0;
  running_summary := "";
  transcript_buffer := [];
  summary_part_id := "running_summary";
|}.

(** The constructor call, allocating the object in the store. *)
Definition IncrementalSummaryManager_init (session_state : loc) (w : World)
  : loc * World :=
  let self := fresh (dom (manager_objs w)) in
  (self,
   {| session_objs := session_objs w;
      manager_objs :=
        <[self := IncrementalSummaryManager_new session_state]> (manager_objs w);
      active_sessions := active_sessions w |}).

(** Field assignments. *)
Definition with_lock (b : bool) (self : IncrementalSummaryManager) := {|
  session_state := session_state self;
  _lock := b;
  _last_update_ts := _last_update_ts self;
  running_summary := running_summary self;
  transcript_buffer := transcript_buffer self;
  summary_part_id := summary_part_id self;
|}.

Definition with_last_update_ts (t : Z) (self : IncrementalSummaryManager) := {|
  session_state := session_state self;
  _lock := _lock self;
  _last_update_ts := t;
  running_summary := running_summary self;
  transcript_buffer := transcript_buffer self;
  summary_part_id := summary_part_id self;
|}.

Definition with_running_summary (s : string) (self : IncrementalSummaryManager) := {|
  session_state := session_state self;
  _lock := _lock self;
  _last_update_ts := _last_update_ts self;
  running_summary := s;
  transcript_buffer := transcript_buffer self;
  summary_part_id := summary_part_id self;
|}.

Definition with_transcript_buffer (b : list string) (self : IncrementalSummaryManager) := {|
  session_state := session_state self;
  _lock := _lock self;
  _last_update_ts := _last_update_ts self;
  running_summary := running_summary self;
  transcript_buffer := b;
  summary_part_id := summary_part_id self;
|}.

(** The arguments of the two [genai.Client(...)] calls. *)
Inductive ClientArgs : Type :=
| VertexClient (location project : string)
| DevClient (api_version : string) (api_key : option string).

(** Calls to the outside made by the coordinator. *)
Inductive event : Type :=
| EvCycle
    (* [_update_summary_locked] is entered (line 69) *)
| EvGenerate (client : ClientArgs) (model contents : string)
             (max_output_tokens : Z)
    (* [client.responses.generate(model=, contents=, config=)] *)
| EvSend (session : handle) (input : pyval).
    (* [session.send(input=)] *)

(** What the text-generation block reads and calls.  [responses_generate]
    answers with the [text] attribute of the response ([None] when the
    attribute is missing or is [None]). *)
Record TextApiEnv : Type := {
  secrets : SecretEnv;
  getenv_VERTEX_LOCATION : option string;
  environ_PROJECT_ID : option string;
  genai_Client : ClientArgs → result unit;
  responses_generate :
    ClientArgs → string → string → Z → result (option string);
}.

(** The three readings of [time.time()] in [maybe_update], in ticks. *)
Record Clock : Type := {
  now_check : Z;    (* line 57 *)
  now_locked : Z;   (* line 65 *)
  now_done : Z;     (* line 70 *)
}.

(** The outside of one call: the session objects as they are at the time
    of the call, the clock, the text API and the live session. *)
Record CallEnv : Type := {
  sessions : gmap loc SessionState;
  clock : Clock;
  text_api : TextApiEnv;
  session_send : handle → pyval → result unit;
}.

(** What a call leaves behind. *)
Record Outcome : Type := {
  out_self : IncrementalSummaryManager;
  out_api : ApiConfig;
  out_trace : list event;
  out_result : result unit;
}.

(** A call that returns having changed and called nothing. *)
Definition unchanged (self : IncrementalSummaryManager) (api : ApiConfig)
  : Outcome :=
  {| out_self := self; out_api := api; out_trace := []; out_result := Ok tt |}.

Section WithSettings.
Variable cfg : Settings.

(** [add_transcript(text)] *)
Definition add_transcript (text : string) (self : IncrementalSummaryManager)
  : IncrementalSummaryManager :=
  if negb (truthy text) then self
  else with_transcript_buffer (transcript_buffer self ++ [text]) self.

(** [get_summary()] *)
Definition get_summary (self : IncrementalSummaryManager) : string :=
  running_summary self.

(** [self.session_state.genai_session] *)
Definition genai_session_of (σ : gmap loc SessionState)
    (self : IncrementalSummaryManager) : option handle :=
  σ !! session_state self ≫= genai_session.

(** [new_chunk] (line 87) *)
Definition new_chunk (self : IncrementalSummaryManager) : string :=
  strip (join LF (transcript_buffer self)).

(** [instruction] (lines 90-92) *)
Definition instruction (self : IncrementalSummaryManager) : string :=
  let instruction := INCREMENTAL_SUMMARY_PROMPT cfg in
  if truthy (running_summary self) then
    instruction +:+ LF +:+ LF
    +:+ "Existing summary to refine (merge and compress further):" +:+ LF
    +:+ running_summary self
  else instruction.

(** [user_text] (line 94) *)
Definition user_text (self : IncrementalSummaryManager) : string :=
  instruction self +:+ LF +:+ LF +:+ "New transcript chunk to incorporate:"
  +:+ LF +:+ new_chunk self.

(** The body of the [try] of lines 97-119. *)
Definition generate_try (env : TextApiEnv) (api : ApiConfig) (contents : string)
  : ApiConfig * list event * result string :=
  let '(api, r) := initialize (secrets env) api in
  match r with
  | Raise e => (api, [], Raise e)
  | Ok _ =>
      let args : result ClientArgs :=
        if use_vertex api then
          let location := default "us-central1" (getenv_VERTEX_LOCATION env) in
          let project_id := environ_PROJECT_ID env in
          if negb (truthy_opt project_id) then
            Raise (ConfigurationError "PROJECT_ID is required for Vertex AI")
          else Ok (VertexClient location (or_empty project_id))
        else Ok (DevClient "v1alpha" (api_key api)) in
      match args with
      | Raise e => (api, [], Raise e)
      | Ok client =>
          match genai_Client env client with
          | Raise e => (api, [], Raise e)
          | Ok _ =>
              let model := INCREMENTAL_SUMMARY_MODEL cfg in
              let max_tokens := INCREMENTAL_SUMMARY_MAX_TOKENS cfg in
              let call := EvGenerate client model contents max_tokens in
              match responses_generate env client model contents max_tokens with
              | Raise e => (api, [call], Raise e)
              | Ok text => (api, [call], Ok (strip (or_empty text)))
              end
          end
      end
  end.

(** The text generation fails: the [try] block raises, be it in the
    configuration, in making the client or in the call itself. *)
Definition generation_fails (env : TextApiEnv) (api : ApiConfig)
    (contents : string) : Prop :=
  ∃ e, (generate_try env api contents).2 = Raise e.

(** The text generation answers [text]: the block reaches
    [client.responses.generate], which returns a response with that
    text. *)
Definition generation_answers (env : TextApiEnv) (api : ApiConfig)
    (contents : string) (text : option string) : Prop :=
  ∃ api' client,
    let model := INCREMENTAL_SUMMARY_MODEL cfg in
    let max_tokens := INCREMENTAL_SUMMARY_MAX_TOKENS cfg in
    responses_generate env client model contents max_tokens = Ok text
    ∧ generate_try env api contents
      = (api', [EvGenerate client model contents max_tokens],
         Ok (strip (or_empty text))).

(** [summary_text] after the [try ... except Exception] of lines 97-122. *)
Definition generate_summary (env : TextApiEnv) (api : ApiConfig)
    (contents : string) : ApiConfig * list event * string :=
  let '(api, calls, r) := generate_try env api contents in
  (api, calls, match r with Ok s => s | Raise _ => "" end).

(** The [input] of the [session.send] of lines 133-149. *)
Definition summary_update_input (summary : string) : pyval :=
  PDict [("client_content",
    PDict [("turns",
              PList [PDict [("role", PStr "user");
                            ("parts",
                               PList [PDict [("text", PStr "[Running summary updated]")];
                                      PDict [("text", PStr summary)]])]]);
           ("turn_complete", PBool false)])].

(** [_update_summary_locked()] *)
Definition _update_summary_locked (env : CallEnv) (api : ApiConfig)
    (self : IncrementalSummaryManager) : Outcome :=
  match genai_session_of (sessions env) self with
  | None =>
      {| out_self := self; out_api := api; out_trace := [];
         out_result := Ok tt |}
  | Some session =>
      let contents := user_text self in
      let self := with_transcript_buffer [] self in
      let '(api, calls, summary_text) :=
        generate_summary (text_api env) api contents in
      if negb (truthy summary_text) then
        {| out_self := self; out_api := api; out_trace := calls;
           out_result := Ok tt |}
      else
        let self := with_running_summary summary_text self in
        let input := summary_update_input (running_summary self) in
        {| out_self := self; out_api := api;
           out_trace := calls ++ [EvSend session input];
           out_result := session_send env session input |}
  end.

(** [maybe_update()].  [None]: the call waits at [async with self._lock]
    because the lock is held; in a run of one call after the other nobody
    releases it.  Otherwise the call returns, never raising. *)
Definition maybe_update (env : CallEnv) (api : ApiConfig)
    (self : IncrementalSummaryManager) : option Outcome :=
  let returns self api trace :=
    Some {| out_self := self; out_api := api; out_trace := trace;
            out_result := Ok tt |} in
  let interval := INCREMENTAL_SUMMARY_INTERVAL_SEC cfg in
  if negb (INCREMENTAL_UPDATES_ENABLED cfg) then returns self api []
  else if now_check (clock env) - _last_update_ts self <? interval then
    returns self api []
  else if bool_decide (transcript_buffer self = []) then returns self api []
  else if _lock self then None
  else
    let self := with_lock true self in
    if now_locked (clock env) - _last_update_ts self <? interval then
      returns (with_lock false self) api []
    else
      let o := _update_summary_locked env api self in
      match out_result o with
      | Ok _ =>
          let self := with_last_update_ts (now_done (clock env)) (out_self o) in
          returns (with_lock false self) (out_api o) (EvCycle :: out_trace o)
      | Raise _ =>
          returns (with_lock false (out_self o)) (out_api o)
                  (EvCycle :: out_trace o)
      end.

(** The prompt of [inject_summary_for_questions] (lines 156-160). *)
Definition questions_prompt (summary : string) : string :=
  "Using the following compact summary of the presentation so far, "
  +:+ "ask 3-5 thoughtful, specific questions that probe understanding, evidence, and implications. "
  +:+ "Keep them concise." +:+ LF +:+ LF +:+ "Summary:" +:+ LF +:+ summary.

Definition questions_input (summary : string) : pyval :=
  PDict [("client_content",
    PDict [("turns",
              PList [PDict [("role", PStr "user");
                            ("parts",
                               PList [PDict [("text", PStr (questions_prompt summary))]])]]);
           ("turn_complete", PBool true)])].

(** [inject_summary_for_questions()]: the manager is not modified. *)
Definition inject_summary_for_questions (env : CallEnv)
    (self : IncrementalSummaryManager) : list event * result unit :=
  match genai_session_of (sessions env) self with
  | None => ([], Ok tt)
  | Some session =>
      if negb (truthy (running_summary self)) then ([], Ok tt)
      else
        let input := questions_input (running_summary self) in
        ([EvSend session input], session_send env session input)
  end.

(** A run of [maybe_update] calls, one after the other, each with its own
    outside; the traces are concatenated. *)
Fixpoint maybe_update_seq (envs : list CallEnv) (api : ApiConfig)
    (self : IncrementalSummaryManager)
  : option (IncrementalSummaryManager * ApiConfig * list event) :=
  match envs with
  | [] => Some (self, api, [])
  | env :: envs =>
      match maybe_update env api self with
      | None => None
      | Some o =>
          match maybe_update_seq envs (out_api o) (out_self o) with
          | None => None
          | Some (self', api', trace) => Some (self', api', out_trace o ++ trace)
          end
      end
  end.

(** What the owner of a manager does with it between two compactions:
    feed a transcript fragment, or ask for an update. *)
Inductive op : Type :=
| OpAddTranscript (text : string)
| OpMaybeUpdate (env : CallEnv).

(** A run of such operations, one after the other. *)
Fixpoint run_ops (ops : list op) (api : ApiConfig)
    (self : IncrementalSummaryManager)
  : option (IncrementalSummaryManager * ApiConfig * list event) :=
  match ops with
  | [] => Some (self, api, [])
  | OpAddTranscript text :: ops => run_ops ops api (add_transcript text self)
  | OpMaybeUpdate env :: ops =>
      match maybe_update env api self with
      | None => None
      | Some o =>
          match run_ops ops (out_api o) (out_self o) with
          | None => None
          | Some (self', api', trace) => Some (self', api', out_trace o ++ trace)
          end
      end
  end.

(** The three pre-checks of [maybe_update] (lines 55-61): one of them
    makes the call return at once. *)
Definition gate_closed (env : CallEnv) (self : IncrementalSummaryManager)
  : Prop :=
  INCREMENTAL_UPDATES_ENABLED cfg = false
  ∨ now_check (clock env) - _last_update_ts self
    < INCREMENTAL_SUMMARY_INTERVAL_SEC cfg
  ∨ transcript_buffer self = [].

(** Calls that all occur within less than the configured interval of each
    other, on a clock that does not run backwards during a call. *)
Definition within_interval (envs : list CallEnv) : Prop :=
  (∀ e, e ∈ envs → now_check (clock e) ≤ now_done (clock e))
  ∧ (∀ e1 e2, e1 ∈ envs → e2 ∈ envs →
       now_check (clock e2) - now_check (clock e1)
       < INCREMENTAL_SUMMARY_INTERVAL_SEC cfg).

(** The outsides of the [maybe_update] calls of a run. *)
Fixpoint update_envs (ops : list op) : list CallEnv :=
  match ops with
  | [] => []
  | OpAddTranscript _ :: ops => update_envs ops
  | OpMaybeUpdate env :: ops => env :: update_envs ops
  end.

(** The number of compaction cycles in a trace. *)
Definition is_cycle (e : event) : bool :=
  match e with EvCycle => true | _ => false end.

Definition cycles (trace : list event) : nat :=
  length (List.filter is_cycle trace).

End WithSettings.

End Summary.

(* ===================================================================== *)
(** * tool_handler.py                                                    *)
(* ===================================================================== *)

Module Tools.

(** The network calls of the tool executor. *)
Inductive event : Type :=
| EvGet (url : option string).
    (* [session.get(function_url)] *)

(** Computations that record network calls and may raise. *)
Definition M (A : Type) : Type := (list event * result A)%type.

#[global] Instance M_ret : MRet M := λ A a, ([], Ok a).

#[global] Instance M_bind : MBind M := λ A B k m,
  match m with
  | (t, Ok a) => let '(t', r) := k a in (t ++ t', r)
  | (t, Raise e) => (t, Raise e)
  end.

(** A call to the outside that records nothing. *)
Definition call {A : Type} (r : result A) : M A := ([], r).

Definition emit (e : event) : M unit := ([e], Ok tt).

(** [try: m  except Exception as e: h e] *)
Definition try_except {A : Type} (m : M A) (h : exn → M A) : M A :=
  match m with
  | (t, Ok a) => (t, Ok a)
  | (t, Raise e) => let '(t', r) := h e in (t ++ t', r)
  end.

(** [async with ...: body], where leaving the block answers [exit]: the
    exit runs on both paths and does not swallow an exception; when it
    raises, its exception is the one that propagates. *)
Definition async_with {A : Type} (body : M A) (exit : result unit) : M A :=
  match body, exit with
  | (t, r), Ok _ => (t, r)
  | (t, _), Raise e => (t, Raise e)
  end.

(** An [aiohttp] response: [response.status], [await response.text()],
    [await response.json()], and the outcome of releasing it. *)
Record Response : Type := {
  status : Z;
  text : result string;
  json : result pyval;
  release : result unit;
}.

(** The outside of one call of [execute_tool]. *)
Record ToolEnv : Type := {
  urlencode : list (string * pyval) → result string;
  ClientSession : result unit;       (* entering [aiohttp.ClientSession()] *)
  session_get : option string → result Response;
  session_close : result unit;       (* leaving the session block *)
}.

(** [CLOUD_FUNCTIONS] as config.py defines it: no tool is configured.  A
    configured entry holds the result of [os.getenv], which may be
    [None]. *)
Definition CLOUD_FUNCTIONS_default : gmap string (option string) := ∅.

(** [{"error": msg}] *)
Definition error_object (msg : string) : pyval := PDict [("error", PStr msg)].

(** [f"{base_url}"] *)
Definition format_opt (o : option string) : string :=
  match o with Some s => s | None => "None" end.

(** Truth value of a [dict]. *)
Definition truthy_dict {A : Type} (d : list A) : bool :=
  match d with [] => false | _ :: _ => true end.

(** [function_url] (line 23) *)
Definition function_url (params : list (string * pyval))
    (base_url : option string) (query_string : string) : option string :=
  if truthy_dict params
  then Some (format_opt base_url +:+ "?" +:+ query_string)
  else base_url.

(** [execute_tool(tool_name, params)] *)
Definition execute_tool (CLOUD_FUNCTIONS : gmap string (option string))
    (env : ToolEnv) (tool_name : string) (params : list (string * pyval))
  : M pyval :=
  try_except
    (match CLOUD_FUNCTIONS !! tool_name with
     | None => mret (error_object ("Unknown tool: " +:+ tool_name))
     | Some base_url =>
         query_string ← call (urlencode env params);
         let function_url := function_url params base_url query_string in
         _ ← call (ClientSession env);
         async_with
           (_ ← emit (EvGet function_url);
            response ← call (session_get env function_url);
            async_with
              (response_text ← call (text response);
               if bool_decide (status response ≠ 200) then
                 mret (error_object ("Cloud function returned status "
                                     +:+ pretty (status response)))
               else
                 try_except (call (json response))
                   (λ e, mret (error_object
                      ("Invalid JSON response from cloud function: "
                       +:+ str_of_exn e))))
              (release response))
           (session_close env)
     end)
    (λ e,
       if is_ClientError e then
         mret (error_object ("Failed to call cloud function: " +:+ str_of_exn e))
       else
         mret (error_object ("Tool execution failed: " +:+ str_of_exn e))).

(** The shape [{error: string}]. *)
Definition is_error_object (v : pyval) : Prop := ∃ msg, v = error_object msg.

(** Case analysis on an answer of the outside: a scrutinee that holds no
    further case analysis. *)
Ltac case_answer :=
  match goal with
  | |- context [match ?x with _ => _ end] =>
      lazymatch x with
      | context [match _ with _ => _ end] => fail
      | _ => destruct x eqn:?
      end
  end; simpl.

Ltac unfold_execute_tool :=
  unfold execute_tool, try_except, async_with, call, emit, mbind, M_bind,
    mret, M_ret; simpl.

End Tools.

(* ===================================================================== *)
(** * Concrete inputs                                                    *)
(* ===================================================================== *)

Module Inputs.
Import Summary.

(** A development-API configuration whose key comes from the secret
    manager. *)
Definition api0 : ApiConfig := {| use_vertex := false; api_key := None |}.

Definition secrets0 : SecretEnv := {|
  get_secret_GOOGLE_API_KEY := Ok "k";
  getenv_GOOGLE_API_KEY := None;
|}.

(** A text API whose generation call answers [r]. *)
Definition text_api_with (r : result (option string)) : TextApiEnv := {|
  secrets := secrets0;
  getenv_VERTEX_LOCATION := None;
  environ_PROJECT_ID := None;
  genai_Client := λ _, Ok tt;
  responses_generate := λ _ _ _ _, r;
|}.

(** One session object, at location 0, with the given live session. *)
Definition session_with (live : option handle) : gmap loc SessionState :=
  {[ 0%nat := {| is_receiving_response := false;
                 interrupted := false;
                 current_tool_execution := None;
                 current_audio_stream := None;
                 genai_session := live;
                 received_model_response := false |} ]}.

(** The outside of a call made at time [t] that takes 5 ticks. *)
Definition env_at (t : Z) (live : option handle)
    (r : result (option string)) (sent : result unit) : CallEnv := {|
  sessions := session_with live;
  clock := {| now_check := t; now_locked := t; now_done := t + 5 |};
  text_api := text_api_with r;
  session_send := λ _ _, sent;
|}.

(** A manager of session 0 with a given summary and buffer. *)
Definition manager_with (summary : string) (buffer : list string)
  : IncrementalSummaryManager :=
  with_transcript_buffer buffer
    (with_running_summary summary (IncrementalSummaryManager_new 0%nat)).

Definition slides : list string := ["Slide 1 covers X."; "Slide 2 covers Y."].

(** Three calls, 10 and 50 ticks after the first. *)
Definition three_calls : list CallEnv :=
  [env_at 100 (Some 7%nat) (Ok (Some "Summary: X, Y.")) (Ok tt);
   env_at 110 (Some 7%nat) (Ok (Some "Again.")) (Ok tt);
   env_at 150 (Some 7%nat) (Ok (Some "And again.")) (Ok tt)].

(** Fragments arriving between and around two calls 50 ticks apart. *)
Definition fed_between_calls : list op :=
  [OpAddTranscript "Slide 1 covers X.";
   OpMaybeUpdate (env_at 100 (Some 7%nat) (Ok (Some "Summary: X.")) (Ok tt));
   OpAddTranscript "";
   OpAddTranscript "Slide 2 covers Y.";
   OpMaybeUpdate (env_at 150 (Some 7%nat) (Ok (Some "Summary: X, Y.")) (Ok tt))].

(** The send of the first cycle fails, a fragment arrives, and a second call
    follows 10 ticks after the first. *)
Definition refilled_after_failed_send : list op :=
  [OpMaybeUpdate (env_at 100 (Some 7%nat) (Ok (Some "Summary: X, Y."))
                    (Raise (ClientError "closed")));
   OpAddTranscript "Slide 3 covers Z.";
   OpMaybeUpdate (env_at 110 (Some 7%nat) (Ok (Some "Summary: X, Y, Z.")) (Ok tt))].

(** A table with one configured tool. *)
Definition one_tool : gmap string (option string) :=
  {[ "search" := Some "https://example.test/search" ]}.

(** A tool endpoint that answers [response]. *)
Definition endpoint (response : result Tools.Response) : Tools.ToolEnv := {|
  Tools.urlencode := λ _, Ok "q=x";
  Tools.ClientSession := Ok tt;
  Tools.session_get := λ _, response;
  Tools.session_close := Ok tt;
|}.

Definition response_500 : Tools.Response := {|
  Tools.status := 500;
  Tools.text := Ok "Internal Server Error";
  Tools.json := Raise (OtherException "Expecting value: line 1 column 1 (char 0)");
  Tools.release := Ok tt;
|}.

Definition response_not_json : Tools.Response := {|
  Tools.status := 200;
  Tools.text := Ok "<html>";
  Tools.json := Raise (OtherException "Expecting value: line 1 column 1 (char 0)");
  Tools.release := Ok tt;
|}.

End Inputs.

(* ===================================================================== *)
(** * config.py: flags of the environment                                *)
(* ===================================================================== *)

Module Environ.

(** [c.lower()] for a code point below 256: A..Z and the capital letters of
    Latin-1 (192..222 but the multiplication sign 215) move up by 32. *)
Definition lower_char (c : Ascii.ascii) : Ascii.ascii :=
  let n := Ascii.N_of_ascii c in
  if ((65 <=? n) && (n <=? 90)
      || (192 <=? n) && (n <=? 222) && negb (n =? 215))%N
  then Ascii.ascii_of_N (n + 32)
  else c.

(** [s.lower()] *)
Fixpoint lower (s : string) : string :=
  match s with
  | EmptyString => EmptyString
  | String c s' => String (lower_char c) (lower s')
  end.

(** [os.getenv(name, fallback).lower() == 'true'], for the value [value] of
    the variable ([None]: not set). *)
Definition env_flag (fallback : string) (value : option string) : bool :=
  String.eqb (lower (default fallback value)) "true".

(** [INCREMENTAL_UPDATES_ENABLED] (line 110) *)
Definition INCREMENTAL_UPDATES_ENABLED_of (value : option string) : bool :=
  env_flag "true" value.

(** [ApiConfig()], for the value of [VERTEX_API] (lines 54-58) *)
Definition ApiConfig_new (VERTEX_API : option string) : ApiConfig := {|
  use_vertex := env_flag "false" VERTEX_API;
  api_key := None;
|}.

(** The character [c] is the letter written [small] or [capital]. *)
Definition letter (small capital : string) (c : Ascii.ascii) : Prop :=
  String c EmptyString = small ∨ String c EmptyString = capital.

(** The word true in any letter case. *)
Definition spells_true (s : string) : Prop :=
  ∃ t r u e,
    s = String t (String r (String u (String e EmptyString)))
    ∧ letter "t" "T" t ∧ letter "r" "R" r
    ∧ letter "u" "U" u ∧ letter "e" "E" e.

End Environ.

(* ===================================================================== *)
(** * config.py: reading a secret                                       *)
(* ===================================================================== *)

Module Secrets.

(** The calls of [get_secret] to the secret manager. *)
Inductive event : Type :=
| EvAccessSecret (name : string).
    (* [client.access_secret_version(request={"name": name})] *)

(** The outside of [get_secret]: making the client, the environment
    variable [PROJECT_ID], and the access itself, answered with the decoded
    payload ([response.payload.data.decode("UTF-8")]). *)
Record SecretManagerEnv : Type := {
  SecretManagerServiceClient : result unit;
  environ_PROJECT_ID : option string;
  access_secret_version : string → result string;
}.

(** The resource name of line 42. *)
Definition secret_name (project_id secret_id : string) : string :=
  "projects/" +:+ project_id +:+ "/secrets/" +:+ secret_id
  +:+ "/versions/latest".

(** [get_secret(secret_id)].  The [except Exception as e: raise] of lines
    47-48 raises again what the access raised. *)
Definition get_secret (env : SecretManagerEnv) (secret_id : string)
  : list event * result string :=
  match SecretManagerServiceClient env with
  | Raise e => ([], Raise e)
  | Ok _ =>
      let project_id := environ_PROJECT_ID env in
      if negb (truthy_opt project_id) then
        ([], Raise (ConfigurationError
                      "PROJECT_ID environment variable is not set"))
      else
        let name := secret_name (or_empty project_id) secret_id in
        ([EvAccessSecret name], access_secret_version env name)
  end.

(** What [ApiConfig.initialize] sees when [get_secret] runs against [env]
    and the environment variable [GOOGLE_API_KEY] is [key]. *)
Definition secret_env (env : SecretManagerEnv) (key : option string)
  : SecretEnv := {|
  get_secret_GOOGLE_API_KEY := (get_secret env "GOOGLE_API_KEY").2;
  getenv_GOOGLE_API_KEY := key;
|}.

End Secrets.

(* ===================================================================== *)
(** * Runs of the registry and states of the manager                     *)
(* ===================================================================== *)

Module Runs.
Import Session Summary.

(** What the transport does with the registry. *)
Inductive registry_op : Type :=
| RCreate (session_id : string)
| RRemove (session_id : string).

Definition registry_step (w : World) (o : registry_op) : World :=
  match o with
  | RCreate session_id => (create_session session_id w).2
  | RRemove session_id => remove_session session_id w
  end.

(** A run of registry operations, one after the other. *)
Definition registry_run (ops : list registry_op) (w : World) : World :=
  foldl registry_step w ops.

(** Every registered id refers to an existing session object, and no two
    ids refer to the same object. *)
Definition registry_ok (w : World) : Prop :=
  (∀ id l, active_sessions w !! id = Some l → is_Some (session_objs w !! l))
  ∧ (∀ id1 id2 l,
       active_sessions w !! id1 = Some l →
       active_sessions w !! id2 = Some l → id1 = id2).

(** The fragments fed by a run, in order. *)
Fixpoint fed_texts (ops : list op) : list string :=
  match ops with
  | [] => []
  | OpAddTranscript text :: ops => text :: fed_texts ops
  | OpMaybeUpdate _ :: ops => fed_texts ops
  end.

(** No buffered fragment is empty. *)
Definition buffer_ok (self : IncrementalSummaryManager) : Prop :=
  ∀ text, text ∈ transcript_buffer self → text ≠ "".

(** The running summary has no white space at either end. *)
Definition summary_ok (self : IncrementalSummaryManager) : Prop :=
  strip (running_summary self) = running_summary self.

(** What a later state of a manager keeps of an earlier one: the session
    it belongs to, the part id and the state of the lock; fragments stay
    non-empty, the summary stays stripped, and a summary once there does not
    go away. *)
Definition keeps (self self' : IncrementalSummaryManager) : Prop :=
  session_state self' = session_state self
  ∧ summary_part_id self' = summary_part_id self
  ∧ _lock self' = _lock self
  ∧ (buffer_ok self → buffer_ok self')
  ∧ (summary_ok self → summary_ok self')
  ∧ (running_summary self ≠ "" → running_summary self' ≠ "").

(** The [input] of the last [session.send] of a trace. *)
Fixpoint last_sent (trace : list event) : option pyval :=
  match trace with
  | [] => None
  | EvSend _ input :: trace =>
      match last_sent trace with
      | Some later => Some later
      | None => Some input
      end
  | _ :: trace => last_sent trace
  end.

(** The first character, if any, is not white space. *)
Definition starts_black (s : string) : Prop :=
  match s with
  | EmptyString => True
  | String c _ => isspace c = false
  end.

(** A string of white space only. *)
Fixpoint blank (s : string) : bool :=
  match s with
  | EmptyString => true
  | String c s' => isspace c && blank s'
  end.

End Runs.

(* ===================================================================== *)
(** * Two invocations of maybe_update at once                            *)
(* ===================================================================== *)

Module Race.
Import Summary.

Section WithSettings.
Variable cfg : Settings.

(** Lines 64-72 of [maybe_update]: what a call does once it has the
    lock. *)
Definition maybe_update_locked (env : CallEnv) (api : ApiConfig)
    (self : IncrementalSummaryManager) : Outcome :=
  let self := with_lock true self in
  if now_locked (clock env) - _last_update_ts self
     <? INCREMENTAL_SUMMARY_INTERVAL_SEC cfg then
    {| out_self := with_lock false self; out_api := api; out_trace := [];
       out_result := Ok tt |}
  else
    let o := _update_summary_locked cfg env api self in
    match out_result o with
    | Ok _ =>
        let self := with_last_update_ts (now_done (clock env)) (out_self o) in
        {| out_self := with_lock false self; out_api := out_api o;
           out_trace := EvCycle :: out_trace o; out_result := Ok tt |}
    | Raise _ =>
        {| out_self := with_lock false (out_self o); out_api := out_api o;
           out_trace := EvCycle :: out_trace o; out_result := Ok tt |}
    end.

(** The manager while a cycle waits for the text generation (line 111):
    the lock is held and the buffer was cleared at line 88.  A cycle gets
    there only with a live session. *)
Definition mid_cycle (self : IncrementalSummaryManager)
  : IncrementalSummaryManager :=
  with_transcript_buffer [] (with_lock true self).

(** Fragments arriving, in order. *)
Definition feed (texts : list string) (self : IncrementalSummaryManager)
  : IncrementalSummaryManager :=
  foldl (λ s text, add_transcript text s) self texts.

(** Two invocations of [maybe_update] on one manager.  The winner, with
    outside [w], finds the lock free and runs its cycle.  While the cycle
    waits for the text generation the fragments [fed] arrive and the loser,
    with outside [l], is invoked: it returns at a pre-check, or it waits for
    the lock and goes on under the lock once the winner has released it.
    What the winner writes after the wait (summary, time stamp, lock) does
    not touch the buffer, so the winner leaves what it leaves when run
    alone, with the fragments fed.  [None]: the winner has to wait itself.
    The result is the outcome of the winner and that of the loser, the
    latter with the manager as both calls leave it. *)
Definition two_invocations (w l : CallEnv) (fed : list string)
    (api : ApiConfig) (self : IncrementalSummaryManager)
  : option (Outcome * Outcome) :=
  match maybe_update cfg w api self with
  | None => None
  | Some ow =>
      let left := feed fed (out_self ow) in
      match maybe_update cfg l (out_api ow) (feed fed (mid_cycle self)) with
      | Some _ => Some (ow, unchanged left (out_api ow))
      | None => Some (ow, maybe_update_locked l (out_api ow) left)
      end
  end.

End WithSettings.

End Race.

(* ===================================================================== *)
(** * More concrete inputs                                               *)
(* ===================================================================== *)

Module MoreInputs.
Import Secrets.

(** A project whose secret manager holds a key. *)
Definition secrets_in_project : SecretManagerEnv := {|
  SecretManagerServiceClient := Ok tt;
  environ_PROJECT_ID := Some "demo";
  access_secret_version := λ _, Ok "k-from-secret";
|}.

(** The same without [PROJECT_ID]. *)
Definition secrets_without_project : SecretManagerEnv := {|
  SecretManagerServiceClient := Ok tt;
  environ_PROJECT_ID := None;
  access_secret_version := λ _, Ok "k-from-secret";
|}.

(** No credentials for the secret manager itself. *)
Definition secrets_unreachable : SecretManagerEnv := {|
  SecretManagerServiceClient := Raise (OtherException "no default credentials");
  environ_PROJECT_ID := Some "demo";
  access_secret_version := λ _, Ok "k-from-secret";
|}.

(** A text API of a process that cannot reach the secret manager and has
    the key in its environment. *)
Definition text_api_env_key : Summary.TextApiEnv := {|
  Summary.secrets := secret_env secrets_unreachable (Some "k-from-env");
  Summary.getenv_VERTEX_LOCATION := None;
  Summary.environ_PROJECT_ID := None;
  Summary.genai_Client := λ _, Ok tt;
  Summary.responses_generate := λ _ _ _ _, Ok (Some "Summary.");
|}.

(** A response with a JSON object. *)
Definition response_weather : Tools.Response := {|
  Tools.status := 200;
  Tools.text := Ok "{}";
  Tools.json := Ok (PDict [("temperature", PInt 21)]);
  Tools.release := Ok tt;
|}.

(** A 200 response whose content type is not JSON: [response.json()]
    raises [aiohttp.ContentTypeError], a client error. *)
Definition response_wrong_type : Tools.Response := {|
  Tools.status := 200;
  Tools.text := Ok "<html>";
  Tools.json := Raise (ClientError "unexpected mimetype");
  Tools.release := Ok tt;
|}.

(** An endpoint that answers well, behind a session that fails to close. *)
Definition endpoint_failing_close : Tools.ToolEnv := {|
  Tools.urlencode := λ _, Ok "q=x";
  Tools.ClientSession := Ok tt;
  Tools.session_get := λ _, Ok response_weather;
  Tools.session_close := Raise (OtherException "Session is closed");
|}.

(** A table whose tool has no URL: its environment variable is not set. *)
Definition unset_tool : gmap string (option string) :=
  {[ "search" := None ]}.

(** The default settings with the feature flag off. *)
Definition settings_off : Settings := {|
  INCREMENTAL_UPDATES_ENABLED := false;
  INCREMENTAL_SUMMARY_INTERVAL_SEC := 60;
  INCREMENTAL_SUMMARY_MAX_TOKENS := 1024;
  INCREMENTAL_SUMMARY_MODEL := "gemini-2.5-flash";
  INCREMENTAL_SUMMARY_PROMPT := INCREMENTAL_SUMMARY_PROMPT defaults;
|}.

End MoreInputs.

(* ===================================================================== *)
(** * Properties of the session registry                                 *)
(* ===================================================================== *)

Module SessionProps.
Import Session Summary.

(** Claim C8, as stated, fails on [create_session]: registering a session
    in the empty store leaves it without an incremental summary state; no
    manager object exists afterwards. *)
Lemma create_session_makes_no_summary_state :
  ¬ has_summary_state (create_session "a" World_empty).2
                      (create_session "a" World_empty).1.
Proof.
  intros (k & m & Hk & _). simpl in Hk.
  rewrite lookup_empty in Hk. discriminate.
Qed.

(** Claim C8, amended.  For every id and every store, [create_session]
    allocates a session object that did not exist before, with the
    dataclass defaults, touches no other session object, and stores it
    under the id whether or not the id was registered: it never fails and
    always overwrites, and the other ids keep their entries.  It creates no
    summary state (the manager objects are the same afterwards); that
    state is made by a separate [IncrementalSummaryManager(session)], with
    the fields [__init__] sets, and this call changes neither the sessions
    nor the registry. *)
Theorem create_session_stores_fresh_and_overwrites
    (session_id : string) (w : World) :
  let session := (create_session session_id w).1 in
  let w' := (create_session session_id w).2 in
  session_objs w !! session = None
  ∧ session_objs w' !! session = Some SessionState_default
  ∧ (∀ l, l ≠ session → session_objs w' !! l = session_objs w !! l)
  ∧ get_session session_id w' = Some session
  ∧ (∀ id', id' ≠ session_id → get_session id' w' = get_session id' w)
  ∧ manager_objs w' = manager_objs w
  ∧ let k := (IncrementalSummaryManager_init session w').1 in
    let w'' := (IncrementalSummaryManager_init session w').2 in
    manager_objs w' !! k = None
    ∧ manager_objs w'' !! k = Some (IncrementalSummaryManager_new session)
    ∧ has_summary_state w'' session
    ∧ session_objs w'' = session_objs w'
    ∧ active_sessions w'' = active_sessions w'.
Proof.
  cbn zeta. unfold create_session, get_session, IncrementalSummaryManager_init.
  cbn [fst snd session_objs manager_objs active_sessions].
  set (session := fresh (dom (session_objs w))).
  set (k := fresh (dom (manager_objs w))).
  repeat split.
  - apply not_elem_of_dom, is_fresh.
  - apply lookup_insert_eq.
  - intros l Hl. by apply lookup_insert_ne.
  - apply lookup_insert_eq.
  - intros id' Hid. by apply lookup_insert_ne.
  - apply not_elem_of_dom, is_fresh.
  - apply lookup_insert_eq.
  - exists k, (IncrementalSummaryManager_new session). split; [|done].
    cbn. apply lookup_insert_eq.
Qed.

(** Creating a session twice under one id: the second object replaces the
    first in the registry, and both objects exist. *)
Example create_session_twice :
  let '(s1, w1) := create_session "a" World_empty in
  let '(s2, w2) := create_session "a" w1 in
  s1 = 0%nat ∧ s2 = 1%nat ∧ get_session "a" w1 = Some s1
  ∧ get_session "a" w2 = Some s2
  ∧ session_objs w2 !! s1 = Some SessionState_default.
Proof. vm_compute. done. Qed.

End SessionProps.
Module SummaryProps.
Import Summary Inputs.

Lemma truthy_false (s : string) : truthy s = false ↔ s = "".
Proof. destruct s; simpl; split; congruence. Qed.

Lemma truthy_true (s : string) : truthy s = true ↔ s ≠ "".
Proof. destruct s; simpl; split; congruence. Qed.

Section Generation.
Variable cfg : Settings.
Variables (env : TextApiEnv) (api : ApiConfig) (contents : string).

(** The text generation either fails or answers some text. *)
Lemma generation_cases :
  generation_fails cfg env api contents
  ∨ ∃ text, generation_answers cfg env api contents text.
Proof.
  unfold generation_fails, generation_answers, generate_try.
  destruct (initialize (secrets env) api) as [api' [[]|e]]; [|left; eauto].
  destruct (use_vertex api').
  - destruct (negb (truthy_opt (environ_PROJECT_ID env))); [left; eauto|].
    destruct (genai_Client env _) as [[]|e]; [|left; eauto].
    destruct (responses_generate env _ _ _ _) as [text|e] eqn:Hgen;
      [right; eauto 6 | left; eauto].
  - destruct (genai_Client env _) as [[]|e]; [|left; eauto].
    destruct (responses_generate env _ _ _ _) as [text|e] eqn:Hgen;
      [right; eauto 6 | left; eauto].
Qed.

Lemma generate_summary_fails :
  generation_fails cfg env api contents →
  (generate_summary cfg env api contents).2 = "".
Proof.
  intros [e He]. unfold generate_summary.
  destruct (generate_try cfg env api contents) as [[api' calls] r].
  simpl in *. by subst.
Qed.

Lemma generate_summary_answers (text : option string) :
  generation_answers cfg env api contents text →
  (generate_summary cfg env api contents).2 = strip (or_empty text)
  ∧ ∃ client,
      (generate_summary cfg env api contents).1.2
      = [EvGenerate client (INCREMENTAL_SUMMARY_MODEL cfg) contents
                    (INCREMENTAL_SUMMARY_MAX_TOKENS cfg)].
Proof.
  intros (api' & client & _ & Htry). unfold generate_summary.
  rewrite Htry. simpl. eauto.
Qed.

End Generation.

Section Cycle.
Variable cfg : Settings.
Variables (env : CallEnv) (api : ApiConfig) (self : IncrementalSummaryManager).

(** The three ways through [_update_summary_locked]. *)
Lemma cycle_no_session :
  genai_session_of (sessions env) self = None →
  _update_summary_locked cfg env api self = unchanged self api.
Proof. intros H. unfold _update_summary_locked. by rewrite H. Qed.

Lemma cycle_aborted (session : handle) :
  genai_session_of (sessions env) self = Some session →
  (generate_summary cfg (text_api env) api (user_text cfg self)).2 = "" →
  _update_summary_locked cfg env api self
  = let g := generate_summary cfg (text_api env) api (user_text cfg self) in
    {| out_self := with_transcript_buffer [] self; out_api := g.1.1;
       out_trace := g.1.2; out_result := Ok tt |}.
Proof.
  intros H Hs. unfold _update_summary_locked.
  rewrite H. destruct (generate_summary _ _ _ _) as [[a c] s]. simpl in *.
  by subst.
Qed.

Lemma cycle_updated (session : handle) :
  genai_session_of (sessions env) self = Some session →
  (generate_summary cfg (text_api env) api (user_text cfg self)).2 ≠ "" →
  _update_summary_locked cfg env api self
  = let g := generate_summary cfg (text_api env) api (user_text cfg self) in
    let input := summary_update_input g.2 in
    {| out_self := with_running_summary g.2 (with_transcript_buffer [] self);
       out_api := g.1.1;
       out_trace := g.1.2 ++ [EvSend session input];
       out_result := session_send env session input |}.
Proof.
  intros H Hs. unfold _update_summary_locked.
  rewrite H. destruct (generate_summary _ _ _ _) as [[a c] s]. simpl in *.
  apply truthy_true in Hs. by rewrite Hs.
Qed.

End Cycle.


(** Claim C10.  If the session's live-session handle is absent when a
    compaction cycle starts, the cycle returns before the snapshot: the
    manager is exactly as it was, in particular the transcript buffer and
    the running summary, and nothing is called. *)
Theorem cycle_without_live_session_changes_nothing
    (cfg : Settings) (env : CallEnv) (api : ApiConfig)
    (self : IncrementalSummaryManager) :
  genai_session_of (sessions env) self = None →
  let o := _update_summary_locked cfg env api self in
  out_self o = self
  ∧ transcript_buffer (out_self o) = transcript_buffer self
  ∧ running_summary (out_self o) = running_summary self
  ∧ out_trace o = []
  ∧ out_result o = Ok tt.
Proof.
  intros H o. subst o. by rewrite cycle_no_session.
Qed.

(** An instance: no live session, the buffer holds the two slides. *)
Lemma cycle_without_live_session_changes_nothing_witness :
  let env := env_at 100 None (Ok (Some "Summary: X, Y.")) (Ok tt) in
  let o := _update_summary_locked defaults env api0 (manager_with "old" slides) in
  genai_session_of (sessions env) (manager_with "old" slides) = None
  ∧ transcript_buffer (out_self o) = slides
  ∧ running_summary (out_self o) = "old".
Proof.
  split; [reflexivity|].
  destruct (cycle_without_live_session_changes_nothing defaults
              (env_at 100 None (Ok (Some "Summary: X, Y.")) (Ok tt)) api0
              (manager_with "old" slides) eq_refl)
    as (_ & Hbuf & Hsum & _).
  split; [exact Hbuf | exact Hsum].
Defined.

(** Claim C1.  With a live-session handle present, after a compaction
    cycle in which the text generation fails, or answers an empty result
    (no text, or text that is empty once stripped), the running summary is
    the one before the cycle and the transcript buffer is empty, for every
    buffer and every prior summary; the cycle returns normally. *)
Theorem failed_cycle_keeps_summary_and_empties_buffer
    (cfg : Settings) (env : CallEnv) (api : ApiConfig)
    (self : IncrementalSummaryManager) (session : handle) :
  genai_session_of (sessions env) self = Some session →
  generation_fails cfg (text_api env) api (user_text cfg self)
  ∨ (∃ text,
       generation_answers cfg (text_api env) api (user_text cfg self) text
       ∧ strip (or_empty text) = "") →
  let o := _update_summary_locked cfg env api self in
  running_summary (out_self o) = running_summary self
  ∧ transcript_buffer (out_self o) = []
  ∧ out_result o = Ok tt.
Proof.
  intros Hs Hgen o. subst o.
  rewrite (cycle_aborted cfg env api self session Hs); [done|].
  destruct Hgen as [Hfail | (text & Hans & Hempty)].
  - by apply generate_summary_fails.
  - apply generate_summary_answers in Hans as [-> _]. done.
Qed.

(** Two instances: the generation call raises, and it answers the empty
    text. *)
Lemma failed_cycle_keeps_summary_and_empties_buffer_witness :
  let self := manager_with "old" slides in
  let raised := env_at 100 (Some 7%nat) (Raise (OtherException "down")) (Ok tt) in
  let empty := env_at 100 (Some 7%nat) (Ok (Some "")) (Ok tt) in
  let o1 := _update_summary_locked defaults raised api0 self in
  let o2 := _update_summary_locked defaults empty api0 self in
  (running_summary (out_self o1) = "old" ∧ transcript_buffer (out_self o1) = []
   ∧ out_result o1 = Ok tt)
  ∧ (running_summary (out_self o2) = "old" ∧ transcript_buffer (out_self o2) = []
     ∧ out_result o2 = Ok tt).
Proof.
  split.
  - apply (failed_cycle_keeps_summary_and_empties_buffer defaults
             (env_at 100 (Some 7%nat) (Raise (OtherException "down")) (Ok tt))
             api0 (manager_with "old" slides) 7%nat eq_refl).
    left. exists (OtherException "down"). reflexivity.
  - apply (failed_cycle_keeps_summary_and_empties_buffer defaults
             (env_at 100 (Some 7%nat) (Ok (Some "")) (Ok tt))
             api0 (manager_with "old" slides) 7%nat eq_refl).
    right. exists (Some ""). split; [|reflexivity].
    eexists _, _. split; reflexivity.
Defined.

(** Claim C4, as stated, fails: the generation answers the non-empty
    text ["Summary: X, Y."] followed by a line feed, and [get_summary]
    then returns that text without the line feed. *)
Lemma cycle_summary_differs_from_generated_text :
  let text := "Summary: X, Y." +:+ LF in
  let env := env_at 100 (Some 7%nat) (Ok (Some text)) (Ok tt) in
  let self := manager_with "" slides in
  let o := _update_summary_locked defaults env api0 self in
  genai_session_of (sessions env) self = Some 7%nat
  ∧ transcript_buffer self ≠ []
  ∧ generation_answers defaults (text_api env) api0 (user_text defaults self)
      (Some text)
  ∧ text ≠ ""
  ∧ get_summary (out_self o) = "Summary: X, Y."
  ∧ get_summary (out_self o) ≠ text.
Proof.
  cbn zeta. split; [reflexivity|]. split; [discriminate|].
  split; [eexists _, _; split; reflexivity|].
  split; [discriminate|]. split; [reflexivity|]. vm_compute. discriminate.
Qed.

(** Claim C4, amended.  With a live-session handle present, after a
    compaction cycle in which the text generation answers a text that is
    non-empty once stripped of leading and trailing white space,
    [get_summary] returns that stripped text and the transcript buffer is
    empty, for every prior state and whatever the send does. *)
Theorem successful_cycle_sets_stripped_summary
    (cfg : Settings) (env : CallEnv) (api : ApiConfig)
    (self : IncrementalSummaryManager) (session : handle)
    (text : option string) :
  genai_session_of (sessions env) self = Some session →
  generation_answers cfg (text_api env) api (user_text cfg self) text →
  strip (or_empty text) ≠ "" →
  let o := _update_summary_locked cfg env api self in
  get_summary (out_self o) = strip (or_empty text)
  ∧ transcript_buffer (out_self o) = [].
Proof.
  intros Hs Hans Hne o. subst o.
  apply generate_summary_answers in Hans as [Htext _].
  rewrite (cycle_updated cfg env api self session Hs) by (by rewrite Htext).
  cbn zeta. cbn [out_self]. by rewrite Htext.
Qed.

(** The scenario of the two slides: the generation answers the summary. *)
Lemma successful_cycle_sets_stripped_summary_witness :
  let env := env_at 100 (Some 7%nat) (Ok (Some "Summary: X, Y.")) (Ok tt) in
  let o := _update_summary_locked defaults env api0 (manager_with "" slides) in
  get_summary (out_self o) = "Summary: X, Y."
  ∧ transcript_buffer (out_self o) = [].
Proof.
  apply (successful_cycle_sets_stripped_summary defaults
           (env_at 100 (Some 7%nat) (Ok (Some "Summary: X, Y.")) (Ok tt))
           api0 (manager_with "" slides) 7%nat (Some "Summary: X, Y.") eq_refl).
  - eexists _, _. split; reflexivity.
  - discriminate.
Defined.


Lemma with_lock_same (self : IncrementalSummaryManager) (b : bool) :
  _lock self = b → with_lock b self = self.
Proof. destruct self; simpl; intros; by subst. Qed.

Lemma with_lock_twice (self : IncrementalSummaryManager) (b c : bool) :
  with_lock b (with_lock c self) = with_lock b self.
Proof. done. Qed.

Lemma user_text_with_lock (cfg : Settings) (b : bool)
    (self : IncrementalSummaryManager) :
  user_text cfg (with_lock b self) = user_text cfg self.
Proof. done. Qed.

Lemma cycles_app (t1 t2 : list event) :
  cycles (t1 ++ t2) = (cycles t1 + cycles t2)%nat.
Proof. unfold cycles. by rewrite List.filter_app, length_app. Qed.

Lemma no_cycles (t : list event) :
  (∀ ev, ev ∈ t → is_cycle ev = false) → cycles t = 0%nat.
Proof.
  unfold cycles. induction t as [|ev t IH]; intros H; [done|].
  simpl. rewrite (H ev) by left. apply IH. intros ev' Hev. apply H. by right.
Qed.

Section Gate.
Variable cfg : Settings.

Lemma maybe_update_gated env api self :
  gate_closed cfg env self → maybe_update cfg env api self = Some (unchanged self api).
Proof.
  unfold gate_closed, maybe_update, unchanged.
  intros [Hflag | [Htime | Hbuf]].
  - by rewrite Hflag.
  - destruct (negb _); [done|].
    apply Z.ltb_lt in Htime. by rewrite Htime.
  - destruct (negb _); [done|]. destruct (_ <? _); [done|].
    by rewrite bool_decide_eq_true_2.
Qed.

(** The calls that the text-generation block records are generation calls
    carrying the contents it was given. *)
Lemma generate_summary_calls env api contents ev :
  ev ∈ (generate_summary cfg env api contents).1.2 →
  ∃ client, ev = EvGenerate client (INCREMENTAL_SUMMARY_MODEL cfg) contents
                            (INCREMENTAL_SUMMARY_MAX_TOKENS cfg).
Proof.
  unfold generate_summary, generate_try.
  destruct (initialize (secrets env) api) as [api' [[]|e]];
    [|simpl; by intros ?%elem_of_nil].
  destruct (use_vertex api').
  - destruct (negb (truthy_opt (environ_PROJECT_ID env)));
      [simpl; by intros ?%elem_of_nil|].
    destruct (genai_Client env _) as [[]|e]; [|simpl; by intros ?%elem_of_nil].
    destruct (responses_generate env _ _ _ _) as [text|e]; simpl;
      intros ->%list_elem_of_singleton; eauto.
  - destruct (genai_Client env _) as [[]|e]; [|simpl; by intros ?%elem_of_nil].
    destruct (responses_generate env _ _ _ _) as [text|e]; simpl;
      intros ->%list_elem_of_singleton; eauto.
Qed.

(** What a cycle records: generation calls with [user_text], and sends of
    the summary update. *)
Lemma cycle_trace env api self ev :
  ev ∈ out_trace (_update_summary_locked cfg env api self) →
  (∃ client, ev = EvGenerate client (INCREMENTAL_SUMMARY_MODEL cfg)
                    (user_text cfg self) (INCREMENTAL_SUMMARY_MAX_TOKENS cfg))
  ∨ (∃ session,
       genai_session_of (sessions env) self = Some session
       ∧ ev = EvSend session
           (summary_update_input
              (running_summary
                 (out_self (_update_summary_locked cfg env api self))))).
Proof.
  destruct (genai_session_of (sessions env) self) as [session|] eqn:Hs.
  - destruct (decide
      ((generate_summary cfg (text_api env) api (user_text cfg self)).2 = ""))
      as [He|He].
    + rewrite (cycle_aborted _ _ _ _ _ Hs He). simpl.
      intros H%generate_summary_calls. by left.
    + rewrite (cycle_updated _ _ _ _ _ Hs He). simpl.
      intros [H%generate_summary_calls | ->%list_elem_of_singleton]%elem_of_app.
      * by left.
      * right. eauto.
  - rewrite (cycle_no_session _ _ _ _ Hs). simpl. by intros ?%elem_of_nil.
Qed.

Lemma cycle_trace_cycles env api self :
  cycles (out_trace (_update_summary_locked cfg env api self)) = 0%nat.
Proof.
  apply no_cycles. intros ev [[c ->] | (s & _ & ->)]%cycle_trace; done.
Qed.

(** A cycle raises only from the send, that is, after the buffer was
    emptied. *)
Lemma cycle_raises_after_clear env api self e :
  out_result (_update_summary_locked cfg env api self) = Raise e →
  transcript_buffer (out_self (_update_summary_locked cfg env api self)) = [].
Proof.
  destruct (genai_session_of (sessions env) self) as [session|] eqn:Hs.
  - destruct (decide
      ((generate_summary cfg (text_api env) api (user_text cfg self)).2 = ""))
      as [He|He].
    + by rewrite (cycle_aborted _ _ _ _ _ Hs He).
    + by rewrite (cycle_updated _ _ _ _ _ Hs He).
  - by rewrite (cycle_no_session _ _ _ _ Hs).
Qed.

(** With the lock free and the gates open, the call runs one cycle. *)
Lemma maybe_update_open env api self :
  INCREMENTAL_UPDATES_ENABLED cfg = true →
  INCREMENTAL_SUMMARY_INTERVAL_SEC cfg ≤ now_check (clock env) - _last_update_ts self →
  INCREMENTAL_SUMMARY_INTERVAL_SEC cfg ≤ now_locked (clock env) - _last_update_ts self →
  transcript_buffer self ≠ [] →
  _lock self = false →
  let c := _update_summary_locked cfg env api (with_lock true self) in
  maybe_update cfg env api self
  = Some {| out_self :=
              with_lock false
                (match out_result c with
                 | Ok _ => with_last_update_ts (now_done (clock env)) (out_self c)
                 | Raise _ => out_self c
                 end);
            out_api := out_api c;
            out_trace := EvCycle :: out_trace c;
            out_result := Ok tt |}.
Proof.
  intros Hflag Ht1 Ht2 Hbuf Hlock c. subst c. unfold maybe_update.
  rewrite Hflag, Hlock. simpl negb. cbn match.
  apply Z.ltb_ge in Ht1, Ht2.
  rewrite Ht1, (bool_decide_eq_false_2 _ Hbuf).
  cbn [_last_update_ts with_lock]. rewrite Ht2.
  by destruct (out_result _).
Qed.

(** One call with the lock free: it returns, leaves the lock free, and
    either changes nothing or runs exactly one cycle, after which the time
    stamp is the time the cycle ended or the buffer is empty. *)
Lemma maybe_update_step env api self :
  _lock self = false →
  ∃ o, maybe_update cfg env api self = Some o
       ∧ _lock (out_self o) = false
       ∧ ((out_self o = self ∧ out_trace o = [])
          ∨ (cycles (out_trace o) = 1%nat
             ∧ (_last_update_ts (out_self o) = now_done (clock env)
                ∨ transcript_buffer (out_self o) = []))).
Proof.
  intros Hlock.
  destruct (INCREMENTAL_UPDATES_ENABLED cfg) eqn:Hflag;
    [|eexists; split; [apply maybe_update_gated; by left|]; simpl; eauto].
  destruct (decide (now_check (clock env) - _last_update_ts self < INCREMENTAL_SUMMARY_INTERVAL_SEC cfg))
    as [Ht1|Ht1];
    [eexists; split; [apply maybe_update_gated; right; by left|]; simpl; eauto|].
  destruct (decide (transcript_buffer self = [])) as [Hbuf|Hbuf];
    [eexists; split; [apply maybe_update_gated; right; by right|]; simpl; eauto|].
  destruct (decide (now_locked (clock env) - _last_update_ts self < INCREMENTAL_SUMMARY_INTERVAL_SEC cfg))
    as [Ht2|Ht2].
  - exists (unchanged self api). split; [|simpl; eauto].
    unfold maybe_update, unchanged. rewrite Hflag, Hlock. simpl negb. cbn match.
    apply Z.nlt_ge, Z.ltb_ge in Ht1. apply Z.ltb_lt in Ht2.
    rewrite Ht1, (bool_decide_eq_false_2 _ Hbuf).
    cbn [_last_update_ts with_lock]. rewrite Ht2.
    by rewrite with_lock_twice, with_lock_same.
  - eexists. split; [apply maybe_update_open; [done|lia|lia|done|done]|].
    cbn [out_self out_trace]. split; [done|]. right. split.
    + change (EvCycle :: ?t) with ([EvCycle] ++ t).
      by rewrite cycles_app, cycle_trace_cycles.
    + destruct (out_result _) eqn:Hr; [by left|].
      right. by apply cycle_raises_after_clear in Hr.
Qed.

Lemma maybe_update_seq_gated envs api self :
  (∀ e, e ∈ envs → gate_closed cfg e self) →
  maybe_update_seq cfg envs api self = Some (self, api, []).
Proof.
  induction envs as [|env envs IH]; intros Hall; [done|].
  simpl. rewrite maybe_update_gated by (apply Hall; left).
  cbn [unchanged out_api out_self out_trace].
  rewrite IH; [done|]. intros e He. apply Hall. by right.
Qed.

Lemma maybe_update_seq_debounced envs api self :
  _lock self = false →
  within_interval cfg envs →
  ∃ self' api' trace,
    maybe_update_seq cfg envs api self = Some (self', api', trace)
    ∧ (cycles trace ≤ 1)%nat.
Proof.
  revert api self.
  induction envs as [|env envs IH]; intros api self Hlock [Hmono Hnear].
  { exists self, api, []. split; [done|]. cbn. lia. }
  destruct (maybe_update_step env api self Hlock)
    as (o & Ho & Hlock' & [[Hself Htrace] | [Hone Hafter]]).
  - destruct (IH (out_api o) (out_self o) Hlock') as (s' & a' & t & Hseq & Hle).
    { split; [intros e He; apply Hmono; by right|].
      intros e1 e2 H1 H2. apply Hnear; by right. }
    exists s', a', t. simpl. rewrite Ho, Hseq, Htrace. done.
  - exists (out_self o), (out_api o), (out_trace o ++ []).
    simpl. rewrite Ho, maybe_update_seq_gated.
    + split; [done|]. rewrite app_nil_r. lia.
    + intros e He. right. destruct Hafter as [Hts | Hbuf]; [left|by right].
      rewrite Hts.
      pose proof (Hmono env (list_elem_of_here _ _)).
      pose proof (Hnear env e (list_elem_of_here _ _) (list_elem_of_further _ _ _ He)).
      lia.
Qed.

End Gate.

Example three_calls_run_one_cycle :
  ∃ self' api' trace,
    maybe_update_seq defaults three_calls api0 (manager_with "" slides)
    = Some (self', api', trace)
    ∧ cycles trace = 1%nat ∧ get_summary self' = "Summary: X, Y."
    ∧ _last_update_ts self' = 105.
Proof. eexists _, _, _. split; [vm_compute; reflexivity|]. done. Qed.

(** Claim C3, as stated, fails: a cycle whose generation call raises
    leaves the running summary as it was, and [maybe_update] still moves
    [_last_update_ts] from 0 to the time the cycle ended. *)
Lemma failed_generation_advances_last_update_ts :
  let self := manager_with "old" slides in
  let env := env_at 100 (Some 7%nat) (Raise (OtherException "down")) (Ok tt) in
  generation_fails defaults (text_api env) api0 (user_text defaults self)
  ∧ ∃ o, maybe_update defaults env api0 self = Some o
         ∧ running_summary (out_self o) = running_summary self
         ∧ _last_update_ts self = 0
         ∧ _last_update_ts (out_self o) = 105.
Proof.
  cbn zeta. split.
  - exists (OtherException "down"). reflexivity.
  - eexists. split; [vm_compute; reflexivity|]. done.
Qed.

(** Claim C3, amended.  [_last_update_ts] records the time at which the
    last compaction cycle returned without raising.  For a call of
    [maybe_update] that passes the checks with the lock free: without a
    live session the time stamp is set to the end of the cycle; with one,
    it is set also when the generation fails or answers an empty result
    (the summary staying as it was); and when the generation answers a text
    that is non-empty once stripped, the summary is replaced by it, the time
    stamp is set if the send returns and is left as it was if the send
    raises. *)
Theorem last_update_ts_set_when_cycle_returns
    (cfg : Settings) (env : CallEnv) (api : ApiConfig)
    (self : IncrementalSummaryManager) :
  INCREMENTAL_UPDATES_ENABLED cfg = true →
  INCREMENTAL_SUMMARY_INTERVAL_SEC cfg
    ≤ now_check (clock env) - _last_update_ts self →
  INCREMENTAL_SUMMARY_INTERVAL_SEC cfg
    ≤ now_locked (clock env) - _last_update_ts self →
  transcript_buffer self ≠ [] →
  _lock self = false →
  ∃ o, maybe_update cfg env api self = Some o
    ∧ (genai_session_of (sessions env) self = None →
       _last_update_ts (out_self o) = now_done (clock env))
    ∧ ∀ session,
        genai_session_of (sessions env) self = Some session →
        (generation_fails cfg (text_api env) api (user_text cfg self)
         ∨ (∃ text,
              generation_answers cfg (text_api env) api (user_text cfg self) text
              ∧ strip (or_empty text) = "") →
         _last_update_ts (out_self o) = now_done (clock env)
         ∧ running_summary (out_self o) = running_summary self)
        ∧ ∀ text,
            generation_answers cfg (text_api env) api (user_text cfg self) text →
            strip (or_empty text) ≠ "" →
            running_summary (out_self o) = strip (or_empty text)
            ∧ (session_send env session
                 (summary_update_input (strip (or_empty text))) = Ok tt →
               _last_update_ts (out_self o) = now_done (clock env))
            ∧ ∀ e,
                session_send env session
                  (summary_update_input (strip (or_empty text))) = Raise e →
                _last_update_ts (out_self o) = _last_update_ts self.
Proof.
  intros Hflag Ht1 Ht2 Hbuf Hlock.
  eexists. split; [by apply maybe_update_open|].
  cbn [out_self]. split; [|intros session Hs; split].
  - intros Hs. by rewrite cycle_no_session.
  - intros Hgen.
    assert ((generate_summary cfg (text_api env) api (user_text cfg self)).2 = "")
      as Hempty.
    { destruct Hgen as [Hfail | (text & Hans & Hempty)].
      - by apply generate_summary_fails.
      - by apply generate_summary_answers in Hans as [-> _]. }
    by rewrite (cycle_aborted cfg env api (with_lock true self) session Hs Hempty).
  - intros text [Htext _]%generate_summary_answers Hne.
    rewrite (cycle_updated cfg env api (with_lock true self) session Hs)
      by (by rewrite user_text_with_lock, Htext).
    cbn zeta. cbn [out_self out_result].
    rewrite user_text_with_lock, Htext. split; [|split].
    + by destruct (session_send _ _ _).
    + by intros ->.
    + by intros e ->.
Qed.

(** An instance: the generation answers, the send raises, and the time stamp
    stays while the summary is replaced. *)
Lemma last_update_ts_set_when_cycle_returns_witness :
  let self := manager_with "old" slides in
  ∃ o, maybe_update defaults
         (env_at 100 (Some 7%nat) (Ok (Some "New.")) (Raise (ClientError "closed")))
         api0 self = Some o
       ∧ running_summary (out_self o) = "New."
       ∧ _last_update_ts (out_self o) = _last_update_ts self.
Proof.
  destruct (last_update_ts_set_when_cycle_returns defaults
              (env_at 100 (Some 7%nat) (Ok (Some "New."))
                      (Raise (ClientError "closed")))
              api0 (manager_with "old" slides))
    as (o & Ho & _ & Hlive); [reflexivity | done | done | done | reflexivity |].
  exists o. split; [exact Ho|].
  destruct (Hlive 7%nat eq_refl) as [_ Hans].
  destruct (Hans (Some "New.")) as (Hsum & _ & Hraise).
  - eexists _, _. split; reflexivity.
  - discriminate.
  - split; [exact Hsum|]. apply (Hraise (ClientError "closed")). reflexivity.
Defined.


Lemma add_transcript_nonempty (text : string) (self : IncrementalSummaryManager) :
  text ≠ "" →
  transcript_buffer (add_transcript text self) = transcript_buffer self ++ [text].
Proof. intros H%truthy_true. unfold add_transcript. by rewrite H. Qed.

Lemma add_transcript_all (texts : list string) (self : IncrementalSummaryManager) :
  transcript_buffer (foldl (λ s text, add_transcript text s) self texts)
  = transcript_buffer self ++ List.filter truthy texts.
Proof.
  revert self. induction texts as [|text texts IH]; intros self; simpl.
  - by rewrite app_nil_r.
  - rewrite IH. unfold add_transcript.
    destruct (truthy text); simpl; [by rewrite <- app_assoc | done].
Qed.

(** Claim C5, as stated, fails: after [add_transcript(" and then")] the
    buffer joins to [" and then"], and the chunk fed into the generation
    call is ["and then"]. *)
Lemma new_chunk_is_not_the_plain_join :
  let self := add_transcript " and then" (manager_with "" []) in
  let env := env_at 100 (Some 7%nat) (Ok (Some "S")) (Ok tt) in
  transcript_buffer self = [" and then"]
  ∧ join LF (transcript_buffer self) = " and then"
  ∧ new_chunk self = "and then"
  ∧ head (out_trace (_update_summary_locked defaults env api0 self))
    = Some (EvGenerate (DevClient "v1alpha" (Some "k")) "gemini-2.5-flash"
              (instruction defaults self +:+ LF +:+ LF
               +:+ "New transcript chunk to incorporate:" +:+ LF
               +:+ "and then") 1024)
  ∧ new_chunk self ≠ join LF (transcript_buffer self).
Proof.
  cbn zeta. split; [reflexivity|]. split; [reflexivity|].
  split; [reflexivity|]. split; [vm_compute; reflexivity|].
  vm_compute. discriminate.
Qed.

(** Claim C5, amended.  Each [add_transcript] with non-empty text appends
    exactly that fragment to the end of the buffer, each one with empty text
    leaves the manager as it was, so after any sequence of calls the buffer
    is the old buffer followed by the non-empty fragments in arrival order;
    and the new chunk that a cycle then feeds into the generation call is
    the join of the buffered fragments with line feeds, stripped of leading
    and trailing white space. *)
Theorem buffered_transcripts_feed_next_compaction
    (cfg : Settings) (self : IncrementalSummaryManager) (texts : list string) :
  let self' := foldl (λ s text, add_transcript text s) self texts in
  (∀ s text, text ≠ "" →
     transcript_buffer (add_transcript text s) = transcript_buffer s ++ [text])
  ∧ (∀ s, add_transcript "" s = s)
  ∧ transcript_buffer self' = transcript_buffer self ++ List.filter truthy texts
  ∧ new_chunk self'
    = strip (join LF (transcript_buffer self ++ List.filter truthy texts))
  ∧ ∀ env api client model contents max_tokens,
      EvGenerate client model contents max_tokens
        ∈ out_trace (_update_summary_locked cfg env api self') →
      contents
      = instruction cfg self' +:+ LF +:+ LF
        +:+ "New transcript chunk to incorporate:" +:+ LF
        +:+ strip (join LF (transcript_buffer self ++ List.filter truthy texts)).
Proof.
  intros self'. split; [|split; [|split; [|split]]].
  - intros s text. apply add_transcript_nonempty.
  - done.
  - apply add_transcript_all.
  - unfold new_chunk. subst self'. by rewrite add_transcript_all.
  - intros env api client model contents max_tokens
      [[c Hev] | (session & _ & Hev)]%cycle_trace; [|done].
    injection Hev as _ _ -> _. unfold user_text, new_chunk.
    subst self'. by rewrite add_transcript_all.
Qed.

(** An instance: two fragments and an empty one, then a cycle with the
    default prompt. *)
Lemma buffered_transcripts_feed_next_compaction_witness :
  let texts := ["Slide 1 covers X."; ""; "Slide 2 covers Y."] in
  let self' := foldl (λ s text, add_transcript text s) (manager_with "" []) texts in
  let env := env_at 100 (Some 7%nat) (Ok (Some "Summary: X, Y.")) (Ok tt) in
  transcript_buffer self' = slides
  ∧ ∃ client model contents max_tokens trace,
      out_trace (_update_summary_locked defaults env api0 self')
      = EvGenerate client model contents max_tokens :: trace
      ∧ contents
        = INCREMENTAL_SUMMARY_PROMPT defaults +:+ LF +:+ LF
          +:+ "New transcript chunk to incorporate:" +:+ LF
          +:+ "Slide 1 covers X." +:+ LF +:+ "Slide 2 covers Y.".
Proof.
  destruct (buffered_transcripts_feed_next_compaction defaults
              (manager_with "" []) ["Slide 1 covers X."; ""; "Slide 2 covers Y."])
    as (_ & _ & Hbuf & _ & Hfeed).
  split; [exact Hbuf|].
  eexists _, _, _, _, _. split; [vm_compute; reflexivity|].
  etrans;
    [eapply (Hfeed (env_at 100 (Some 7%nat) (Ok (Some "Summary: X, Y.")) (Ok tt))
               api0);
     vm_compute; left
    | vm_compute; reflexivity].
Defined.

(** Claim C6 at a concrete cycle.  The manager's part id is
    ["running_summary"]; the cycle sends the two parts with
    [turn_complete] false, and the part id occurs nowhere in what is sent,
    neither as a key nor as a value. *)
Theorem summary_update_carries_no_part_id :
  let self := manager_with "" ["Slide 1 covers X."] in
  let env := env_at 100 (Some 7%nat) (Ok (Some "Summary: X.")) (Ok tt) in
  let o := _update_summary_locked defaults env api0 self in
  summary_part_id self = "running_summary"
  ∧ (∃ call,
       out_trace o
       = [call;
          EvSend 7%nat
            (PDict [("client_content",
               PDict [("turns",
                         PList [PDict [("role", PStr "user");
                                       ("parts",
                                          PList [PDict [("text", PStr "[Running summary updated]")];
                                                 PDict [("text", PStr "Summary: X.")]])]]);
                      ("turn_complete", PBool false)])])])
  ∧ ∀ session input,
      EvSend session input ∈ out_trace o →
      summary_part_id (out_self o) ∉ strings_of input.
Proof.
  cbn zeta. split; [reflexivity|]. split; [eexists; reflexivity|].
  intros session input Hin. vm_compute in Hin.
  apply elem_of_cons in Hin as [Hin | Hin]; [discriminate|].
  apply list_elem_of_singleton in Hin. injection Hin as _ ->.
  vm_compute. intros Hin.
  repeat (apply elem_of_cons in Hin as [Hin | Hin]; [discriminate|]).
  by apply elem_of_nil in Hin.
Qed.


Section Interleaved.
Variable cfg : Settings.

(** When the send cannot raise, a cycle returns normally. *)
Lemma cycle_returns_if_send_returns env api self :
  (∀ session input, session_send env session input = Ok tt) →
  out_result (_update_summary_locked cfg env api self) = Ok tt.
Proof.
  intros Hsend.
  destruct (genai_session_of (sessions env) self) as [session|] eqn:Hs.
  - destruct (decide
      ((generate_summary cfg (text_api env) api (user_text cfg self)).2 = ""))
      as [He|He].
    + by rewrite (cycle_aborted _ _ _ _ _ Hs He).
    + rewrite (cycle_updated _ _ _ _ _ Hs He). apply Hsend.
  - by rewrite (cycle_no_session _ _ _ _ Hs).
Qed.

Lemma maybe_update_step_returning env api self :
  _lock self = false →
  (∀ session input, session_send env session input = Ok tt) →
  ∃ o, maybe_update cfg env api self = Some o
       ∧ _lock (out_self o) = false
       ∧ ((out_self o = self ∧ out_trace o = [])
          ∨ (cycles (out_trace o) = 1%nat
             ∧ _last_update_ts (out_self o) = now_done (clock env))).
Proof.
  intros Hlock Hsend.
  destruct (INCREMENTAL_UPDATES_ENABLED cfg) eqn:Hflag;
    [|eexists; split; [apply maybe_update_gated; by left|]; simpl; eauto].
  destruct (decide (now_check (clock env) - _last_update_ts self
                    < INCREMENTAL_SUMMARY_INTERVAL_SEC cfg)) as [Ht1|Ht1];
    [eexists; split; [apply maybe_update_gated; right; by left|]; simpl; eauto|].
  destruct (decide (transcript_buffer self = [])) as [Hbuf|Hbuf];
    [eexists; split; [apply maybe_update_gated; right; by right|]; simpl; eauto|].
  destruct (decide (now_locked (clock env) - _last_update_ts self
                    < INCREMENTAL_SUMMARY_INTERVAL_SEC cfg)) as [Ht2|Ht2].
  - destruct (maybe_update_step cfg env api self Hlock)
      as (o & Ho & Hl & [Hsame | [Hone _]]); [by eauto|].
    exfalso. revert Ho Hone. unfold maybe_update.
    rewrite Hflag, Hlock. simpl negb. cbn match.
    apply Z.nlt_ge, Z.ltb_ge in Ht1. apply Z.ltb_lt in Ht2.
    rewrite Ht1, (bool_decide_eq_false_2 _ Hbuf).
    cbn [_last_update_ts with_lock]. rewrite Ht2.
    intros [= <-]. done.
  - eexists. split; [apply maybe_update_open; [done|lia|lia|done|done]|].
    cbn [out_self out_trace]. split; [done|]. right.
    rewrite cycle_returns_if_send_returns by done. split; [|done].
    change (EvCycle :: ?t) with ([EvCycle] ++ t).
    by rewrite cycles_app, cycle_trace_cycles.
Qed.

Lemma add_transcript_keeps_rest text self :
  _lock (add_transcript text self) = _lock self
  ∧ _last_update_ts (add_transcript text self) = _last_update_ts self.
Proof. unfold add_transcript. by destruct (truthy text). Qed.

Lemma run_ops_gated_by_time ops api self :
  (∀ e, e ∈ update_envs ops →
        now_check (clock e) - _last_update_ts self
        < INCREMENTAL_SUMMARY_INTERVAL_SEC cfg) →
  ∃ self', run_ops cfg ops api self = Some (self', api, []).
Proof.
  revert self. induction ops as [|[text|env] ops IH]; intros self Hall; simpl.
  - eauto.
  - apply IH. intros e He.
    rewrite (proj2 (add_transcript_keeps_rest text self)). by apply Hall.
  - rewrite maybe_update_gated by (right; left; apply Hall; left).
    cbn [unchanged out_api out_self out_trace].
    destruct (IH self) as [self' ->]; [|eauto].
    intros e He. apply Hall. by right.
Qed.

Lemma run_ops_debounced ops api self :
  _lock self = false →
  within_interval cfg (update_envs ops) →
  (∀ env session input,
     env ∈ update_envs ops → session_send env session input = Ok tt) →
  ∃ self' api' trace,
    run_ops cfg ops api self = Some (self', api', trace)
    ∧ (cycles trace ≤ 1)%nat.
Proof.
  revert api self.
  induction ops as [|[text|env] ops IH]; intros api self Hlock [Hmono Hnear] Hsend.
  - exists self, api, []. split; [done|]. cbn. lia.
  - simpl. apply IH; [|done|done].
    by rewrite (proj1 (add_transcript_keeps_rest text self)).
  - simpl in Hmono, Hnear, Hsend.
    destruct (maybe_update_step_returning env api self Hlock)
      as (o & Ho & Hlock' & [[Hself Htrace] | [Hone Hts]]).
    { intros session input. apply Hsend. left. }
    + destruct (IH (out_api o) (out_self o) Hlock') as (s' & a' & t & Hrun & Hle).
      { split; [intros e He; apply Hmono; by right|].
        intros e1 e2 H1 H2. apply Hnear; by right. }
      { intros e session input He. apply Hsend. by right. }
      exists s', a', t. simpl. rewrite Ho, Hrun, Htrace. done.
    + destruct (run_ops_gated_by_time ops (out_api o) (out_self o)) as [s' Hrun].
      { intros e He. rewrite Hts.
        pose proof (Hmono env (list_elem_of_here _ _)).
        pose proof (Hnear env e (list_elem_of_here _ _)
                      (list_elem_of_further _ _ _ He)).
        lia. }
      exists s', (out_api o), (out_trace o ++ []).
      simpl. rewrite Ho, Hrun. split; [done|]. rewrite app_nil_r. lia.
Qed.


(** A run that interleaves [add_transcript] and [maybe_update], started
    with the lock free, whose [maybe_update] calls all occur within less than
    the interval of each other and in which no send raises, returns and
    contains at most one compaction cycle. *)
Theorem interleaved_run_debounced ops api self :
  _lock self = false →
  within_interval cfg (update_envs ops) →
  (∀ env session input,
     env ∈ update_envs ops → session_send env session input = Ok tt) →
  ∃ self' api' trace,
    run_ops cfg ops api self = Some (self', api', trace)
    ∧ (cycles trace ≤ 1)%nat.
Proof. apply run_ops_debounced. Qed.

End Interleaved.

(** An instance: the run [fed_between_calls]. *)
Lemma interleaved_run_debounced_witness :
  ∃ self' api' trace,
    run_ops defaults fed_between_calls api0 (manager_with "" [])
    = Some (self', api', trace)
    ∧ (cycles trace ≤ 1)%nat.
Proof.
  apply (interleaved_run_debounced defaults fed_between_calls api0
           (manager_with "" [])); [reflexivity | split |].
  - intros e He. repeat (apply elem_of_cons in He as [-> | He]); [done..|].
    by apply elem_of_nil in He.
  - intros e1 e2 H1 H2.
    repeat (apply elem_of_cons in H1 as [-> | H1]);
      try (by apply elem_of_nil in H1);
      repeat (apply elem_of_cons in H2 as [-> | H2]);
      try (by apply elem_of_nil in H2); done.
  - intros e session input He.
    repeat (apply elem_of_cons in He as [-> | He]); [done..|].
    by apply elem_of_nil in He.
Defined.

(** Claim C2, as stated, fails: two calls of [maybe_update] 10 ticks
    apart, with the default interval of 60, run two compaction cycles.  The
    send of the first cycle raises, so the time stamp stays, and a fragment
    fed before the second call refills the buffer. *)
Example failed_send_allows_second_cycle :
  within_interval defaults (update_envs refilled_after_failed_send)
  ∧ ∃ self' api' trace,
      run_ops defaults refilled_after_failed_send api0 (manager_with "" slides)
      = Some (self', api', trace)
      ∧ cycles trace = 2%nat.
Proof.
  split.
  - split.
    + intros e He. repeat (apply elem_of_cons in He as [-> | He]); [done..|].
      by apply elem_of_nil in He.
    + intros e1 e2 H1 H2.
      repeat (apply elem_of_cons in H1 as [-> | H1]);
        try (by apply elem_of_nil in H1);
        repeat (apply elem_of_cons in H2 as [-> | H2]);
        try (by apply elem_of_nil in H2); done.
  - eexists _, _, _. split; [vm_compute; reflexivity|]. done.
Qed.

(** Claim C2, amended.  A call of [maybe_update] made while the feature
    flag is off, or less than the configured interval after
    [_last_update_ts], or with an empty buffer, returns without a cycle and
    leaves the manager and the API configuration as they were.
    Consequently calls that all occur within less than the interval of each
    other, started with the lock free, return and run at most one compaction
    cycle, whatever fragments are fed between them, as long as no send to
    the live session raises; and when nothing is fed between them, whatever
    the sends do. *)
Theorem maybe_update_gated_and_debounced_unless_send_fails (cfg : Settings) :
  (∀ env api self,
     INCREMENTAL_UPDATES_ENABLED cfg = false
     ∨ now_check (clock env) - _last_update_ts self
       < INCREMENTAL_SUMMARY_INTERVAL_SEC cfg
     ∨ transcript_buffer self = [] →
     maybe_update cfg env api self
     = Some {| out_self := self; out_api := api; out_trace := [];
               out_result := Ok tt |})
  ∧ (∀ ops api self,
       _lock self = false →
       within_interval cfg (update_envs ops) →
       (∀ env session input,
          env ∈ update_envs ops → session_send env session input = Ok tt) →
       ∃ self' api' trace,
         run_ops cfg ops api self = Some (self', api', trace)
         ∧ (cycles trace ≤ 1)%nat)
  ∧ (∀ envs api self,
       _lock self = false →
       within_interval cfg envs →
       ∃ self' api' trace,
         maybe_update_seq cfg envs api self = Some (self', api', trace)
         ∧ (cycles trace ≤ 1)%nat).
Proof.
  split; [|split].
  - intros env api self H. by apply maybe_update_gated.
  - intros ops api self. apply run_ops_debounced.
  - intros envs api self. apply maybe_update_seq_debounced.
Qed.

(** Instances: a call 30 ticks after the time stamp with the default
    interval of 60; the run [fed_between_calls], whose sends return; and
    the run of [three_calls], with nothing fed in between. *)
Lemma maybe_update_gated_and_debounced_unless_send_fails_witness :
  maybe_update defaults (env_at 30 (Some 7%nat) (Ok (Some "S")) (Ok tt)) api0
    (manager_with "old" slides)
  = Some {| out_self := manager_with "old" slides; out_api := api0;
            out_trace := []; out_result := Ok tt |}
  ∧ (∃ self' api' trace,
       run_ops defaults fed_between_calls api0 (manager_with "" [])
       = Some (self', api', trace)
       ∧ (cycles trace ≤ 1)%nat)
  ∧ ∃ self' api' trace,
      maybe_update_seq defaults three_calls api0 (manager_with "" slides)
      = Some (self', api', trace)
      ∧ (cycles trace ≤ 1)%nat.
Proof.
  destruct (maybe_update_gated_and_debounced_unless_send_fails defaults)
    as (Hgate & Hrun & Hseq).
  split; [|split].
  - apply Hgate. right. left. reflexivity.
  - apply Hrun; [reflexivity | split |].
    + intros e He. repeat (apply elem_of_cons in He as [-> | He]); [done..|].
      by apply elem_of_nil in He.
    + intros e1 e2 H1 H2.
      repeat (apply elem_of_cons in H1 as [-> | H1]);
        try (by apply elem_of_nil in H1);
        repeat (apply elem_of_cons in H2 as [-> | H2]);
        try (by apply elem_of_nil in H2); done.
    + intros e session input He.
      repeat (apply elem_of_cons in He as [-> | He]); [done..|].
      by apply elem_of_nil in He.
  - apply Hseq; [reflexivity|]. split.
    + intros e He. repeat (apply elem_of_cons in He as [-> | He]); [done..|].
      by apply elem_of_nil in He.
    + intros e1 e2 H1 H2.
      repeat (apply elem_of_cons in H1 as [-> | H1]);
        try (by apply elem_of_nil in H1);
        repeat (apply elem_of_cons in H2 as [-> | H2]);
        try (by apply elem_of_nil in H2); done.
Defined.

(** Every update that a compaction cycle sends goes to the live session of
    the manager's session and carries exactly two parts, the marker and the
    running summary as the cycle leaves it, with [turn_complete] false. *)
Theorem cycle_update_has_two_parts_and_keeps_turn_open
    (cfg : Settings) (env : CallEnv) (api : ApiConfig)
    (self : IncrementalSummaryManager) (session : handle) (input : pyval) :
  EvSend session input ∈ out_trace (_update_summary_locked cfg env api self) →
  genai_session_of (sessions env) self = Some session
  ∧ input
    = PDict [("client_content",
        PDict [("turns",
                  PList [PDict [("role", PStr "user");
                                ("parts",
                                   PList [PDict [("text", PStr "[Running summary updated]")];
                                          PDict [("text",
                                                  PStr (running_summary
                                                          (out_self (_update_summary_locked cfg env api self))))]])]]);
               ("turn_complete", PBool false)])].
Proof.
  intros [[c Hev] | (s & Hs & Hev)]%cycle_trace; [done|].
  injection Hev as -> ->. done.
Qed.

(** An instance: the update sent for the summary of one slide. *)
Lemma cycle_update_has_two_parts_and_keeps_turn_open_witness :
  genai_session_of
    (sessions (env_at 100 (Some 7%nat) (Ok (Some "Summary: X.")) (Ok tt)))
    (manager_with "" slides) = Some 7%nat
  ∧ summary_update_input "Summary: X."
    = PDict [("client_content",
        PDict [("turns",
                  PList [PDict [("role", PStr "user");
                                ("parts",
                                   PList [PDict [("text", PStr "[Running summary updated]")];
                                          PDict [("text", PStr "Summary: X.")]])]]);
               ("turn_complete", PBool false)])].
Proof.
  apply (cycle_update_has_two_parts_and_keeps_turn_open defaults
           (env_at 100 (Some 7%nat) (Ok (Some "Summary: X.")) (Ok tt)) api0
           (manager_with "" slides) 7%nat (summary_update_input "Summary: X.")).
  vm_compute. right. left.
Defined.

(** The one send of [inject_summary_for_questions] carries the question
    prompt built on the running summary as its only part, with
    [turn_complete] true. *)
Theorem inject_summary_completes_turn
    (env : CallEnv) (self : IncrementalSummaryManager)
    (session : handle) (input : pyval) :
  EvSend session input ∈ (inject_summary_for_questions env self).1 →
  genai_session_of (sessions env) self = Some session
  ∧ running_summary self ≠ ""
  ∧ input
    = PDict [("client_content",
        PDict [("turns",
                  PList [PDict [("role", PStr "user");
                                ("parts",
                                   PList [PDict [("text",
                                                  PStr (questions_prompt (running_summary self)))]])]]);
               ("turn_complete", PBool true)])].
Proof.
  unfold inject_summary_for_questions.
  destruct (genai_session_of (sessions env) self) as [s|];
    [|simpl; by intros ?%elem_of_nil].
  destruct (truthy (running_summary self)) eqn:Ht;
    [|simpl; by intros ?%elem_of_nil].
  simpl. intros Hev%list_elem_of_singleton. injection Hev as -> ->.
  by apply truthy_true in Ht.
Qed.

(** An instance: a manager holding a summary, with a live session. *)
Lemma inject_summary_completes_turn_witness :
  genai_session_of
    (sessions (env_at 100 (Some 7%nat) (Ok None) (Ok tt)))
    (manager_with "Summary: X." []) = Some 7%nat
  ∧ "Summary: X." ≠ ""
  ∧ questions_input "Summary: X."
    = PDict [("client_content",
        PDict [("turns",
                  PList [PDict [("role", PStr "user");
                                ("parts",
                                   PList [PDict [("text",
                                                  PStr (questions_prompt "Summary: X."))]])]]);
               ("turn_complete", PBool true)])].
Proof.
  apply (inject_summary_completes_turn
           (env_at 100 (Some 7%nat) (Ok None) (Ok tt))
           (manager_with "Summary: X." []) 7%nat
           (questions_input "Summary: X.")).
  vm_compute. left.
Defined.

End SummaryProps.

(* ===================================================================== *)
(** * Properties of the tool executor                                    *)
(* ===================================================================== *)

Module ToolsProps.
Import Tools Inputs.

(** Whatever the outside answers, [execute_tool] returns a value, and the
    value is an error object unless it is the parsed JSON body of a
    response with status 200 to the request for the tool's URL. *)
Lemma execute_tool_result
    (CLOUD_FUNCTIONS : gmap string (option string)) (env : ToolEnv)
    (tool_name : string) (params : list (string * pyval)) :
  ∃ v, (execute_tool CLOUD_FUNCTIONS env tool_name params).2 = Ok v
       ∧ (is_error_object v
          ∨ ∃ base_url query_string response,
              CLOUD_FUNCTIONS !! tool_name = Some base_url
              ∧ urlencode env params = Ok query_string
              ∧ session_get env (function_url params base_url query_string)
                = Ok response
              ∧ status response = 200
              ∧ json response = Ok v).
Proof.
  unfold_execute_tool. repeat case_answer;
    eexists; (split; [reflexivity|]);
    try (left; eexists; reflexivity).
  right.
  match goal with
  | H : bool_decide _ = false |- _ =>
      apply bool_decide_eq_false in H; apply dec_stable in H
  end.
  eauto 10.
Qed.

(** Claim C7.  For every table of tools, tool name, argument mapping and
    behaviour of the network, [execute_tool] returns a value and raises
    nothing, and the value is either the parsed JSON body of a response
    with status 200 or an object [{error: string}].  An unknown tool name
    gives [{"error": "Unknown tool: <name>"}] and no network call; a
    response with a status N other than 200 gives
    [{"error": "Cloud function returned status N"}]; a request that raises
    (a network failure) and a body that does not parse as JSON give an
    error object too. *)
Theorem execute_tool_never_raises
    (CLOUD_FUNCTIONS : gmap string (option string)) (env : ToolEnv)
    (tool_name : string) (params : list (string * pyval)) :
  let r := execute_tool CLOUD_FUNCTIONS env tool_name params in
  (∃ v, r.2 = Ok v
        ∧ (is_error_object v
           ∨ ∃ base_url query_string response,
               CLOUD_FUNCTIONS !! tool_name = Some base_url
               ∧ urlencode env params = Ok query_string
               ∧ session_get env (function_url params base_url query_string)
                 = Ok response
               ∧ status response = 200
               ∧ json response = Ok v))
  ∧ (CLOUD_FUNCTIONS !! tool_name = None →
     r = ([], Ok (error_object ("Unknown tool: " +:+ tool_name))))
  ∧ (∀ base_url query_string response body,
       CLOUD_FUNCTIONS !! tool_name = Some base_url →
       urlencode env params = Ok query_string →
       ClientSession env = Ok tt →
       session_get env (function_url params base_url query_string)
       = Ok response →
       text response = Ok body →
       status response ≠ 200 →
       release response = Ok tt →
       session_close env = Ok tt →
       r = ([EvGet (function_url params base_url query_string)],
            Ok (error_object ("Cloud function returned status "
                              +:+ pretty (status response)))))
  ∧ (∀ base_url query_string e,
       CLOUD_FUNCTIONS !! tool_name = Some base_url →
       urlencode env params = Ok query_string →
       session_get env (function_url params base_url query_string)
       = Raise e →
       ∃ v, r.2 = Ok v ∧ is_error_object v)
  ∧ (∀ base_url query_string response e,
       CLOUD_FUNCTIONS !! tool_name = Some base_url →
       urlencode env params = Ok query_string →
       session_get env (function_url params base_url query_string)
       = Ok response →
       json response = Raise e →
       ∃ v, r.2 = Ok v ∧ is_error_object v).
Proof.
  intros r. subst r. split; [|split; [|split; [|split]]].
  - apply execute_tool_result.
  - intros H. unfold_execute_tool. by rewrite H.
  - intros base_url query_string response body Ht Hq Hs Hg Hb Hst Hr Hc.
    unfold_execute_tool. rewrite Ht, Hq. simpl. rewrite Hs, Hg. simpl.
    rewrite Hb. simpl. rewrite (bool_decide_eq_true_2 _ Hst). simpl.
    by rewrite Hr, Hc.
  - intros base_url query_string e Ht Hq Hg.
    destruct (execute_tool_result CLOUD_FUNCTIONS env tool_name params)
      as (v & Hv & [Herr | (b & q & resp & Ht' & Hq' & Hg' & _)]); [eauto|].
    congruence.
  - intros base_url query_string response e Ht Hq Hg Hj.
    destruct (execute_tool_result CLOUD_FUNCTIONS env tool_name params)
      as (v & Hv & [Herr | (b & q & resp & Ht' & Hq' & Hg' & _ & Hj')]);
      [eauto|].
    congruence.
Qed.

(** Instances: the unknown tool foo, a response with status 500, a request
    that cannot connect, and a body that is not JSON. *)
Lemma execute_tool_never_raises_witness :
  execute_tool CLOUD_FUNCTIONS_default (endpoint (Ok response_500)) "foo" []
  = ([], Ok (PDict [("error", PStr "Unknown tool: foo")]))
  ∧ execute_tool one_tool (endpoint (Ok response_500)) "search"
      [("q", PStr "x")]
    = ([EvGet (Some "https://example.test/search?q=x")],
       Ok (PDict [("error", PStr "Cloud function returned status 500")]))
  ∧ (∃ v, (execute_tool one_tool
             (endpoint (Raise (ClientError "Cannot connect to host")))
             "search" [("q", PStr "x")]).2 = Ok v
          ∧ is_error_object v)
  ∧ (∃ v, (execute_tool one_tool (endpoint (Ok response_not_json))
             "search" [("q", PStr "x")]).2 = Ok v
          ∧ is_error_object v).
Proof.
  split; [|split; [|split]].
  - apply (execute_tool_never_raises CLOUD_FUNCTIONS_default
             (endpoint (Ok response_500)) "foo" []).
    reflexivity.
  - etrans;
      [eapply (execute_tool_never_raises one_tool (endpoint (Ok response_500))
                 "search" [("q", PStr "x")]);
       first [reflexivity | discriminate]
      | vm_compute; reflexivity].
  - destruct (execute_tool_never_raises one_tool
                (endpoint (Raise (ClientError "Cannot connect to host")))
                "search" [("q", PStr "x")]) as (_ & _ & _ & Hnet & _).
    eapply Hnet; reflexivity.
  - destruct (execute_tool_never_raises one_tool
                (endpoint (Ok response_not_json))
                "search" [("q", PStr "x")]) as (_ & _ & _ & _ & Hjson).
    eapply Hjson; reflexivity.
Defined.

End ToolsProps.

(* ===================================================================== *)
(** * More on the session registry                                       *)
(* ===================================================================== *)

Module RegistryProps.
Import Session Summary Runs.

Lemma remove_session_registry (session_id : string) (w : World) :
  active_sessions (remove_session session_id w)
  = delete session_id (active_sessions w).
Proof.
  unfold remove_session. case_decide as H; [done|].
  simpl. symmetry. apply delete_id.
  by apply eq_None_not_Some.
Qed.

Lemma remove_session_objects (session_id : string) (w : World) :
  session_objs (remove_session session_id w) = session_objs w
  ∧ manager_objs (remove_session session_id w) = manager_objs w.
Proof. unfold remove_session. by case_decide. Qed.

(** [remove_session] unregisters the id and nothing else: afterwards the
    id is not found, every other id is found as before, and no session or
    manager object is touched.  Removing an id that is not registered
    changes nothing, so removing twice is removing once. *)
Theorem remove_session_unregisters_only_that_id
    (session_id : string) (w : World) :
  let w' := remove_session session_id w in
  get_session session_id w' = None
  ∧ (∀ id', id' ≠ session_id → get_session id' w' = get_session id' w)
  ∧ session_objs w' = session_objs w
  ∧ manager_objs w' = manager_objs w
  ∧ (get_session session_id w = None → w' = w)
  ∧ remove_session session_id w' = w'.
Proof.
  cbn zeta. unfold get_session. rewrite !remove_session_registry.
  destruct (remove_session_objects session_id w) as [Hs Hm].
  split; [apply lookup_delete_eq|].
  split; [intros id' Hne; by apply lookup_delete_ne|].
  split; [done|]. split; [done|]. split.
  - intros Hnone. unfold remove_session. case_decide as H; [|done].
    rewrite Hnone in H. by destruct H.
  - unfold remove_session at 1. case_decide as H; [|done].
    rewrite remove_session_registry, lookup_delete_eq in H. by destruct H.
Qed.

(** Registering an id and removing it again leaves the registry as it was
    without that id: an entry that [create_session] overwrote does not come
    back, and when the id was not registered before, the registry is the one
    before the two calls. *)
Theorem create_then_remove_forgets_the_id (session_id : string) (w : World) :
  let w' := remove_session session_id (create_session session_id w).2 in
  active_sessions w' = delete session_id (active_sessions w)
  ∧ get_session session_id w' = None
  ∧ (get_session session_id w = None → active_sessions w' = active_sessions w).
Proof.
  cbn zeta. unfold get_session. rewrite !remove_session_registry.
  cbn [create_session snd active_sessions].
  rewrite delete_insert_eq. split; [done|].
  split; [apply lookup_delete_eq|].
  intros H. by apply delete_id.
Qed.

Lemma registry_ok_empty : registry_ok World_empty.
Proof. split; intros *; simpl; by rewrite lookup_empty. Qed.

Lemma registry_ok_create (session_id : string) (w : World) :
  registry_ok w → registry_ok (create_session session_id w).2.
Proof.
  intros [Hwf Hinj]. unfold create_session. cbn [snd].
  set (l := fresh (dom (session_objs w))).
  assert (session_objs w !! l = None) as Hfresh
    by apply not_elem_of_dom, is_fresh.
  split; cbn [active_sessions session_objs].
  - intros id l'. rewrite lookup_insert. case_decide.
    + intros [= <-]. rewrite lookup_insert_eq. eauto.
    + intros H'%Hwf. rewrite lookup_insert. case_decide; eauto.
  - intros id1 id2 l'. rewrite !lookup_insert.
    repeat case_decide; subst; try done.
    + intros [= <-] H'%Hwf. rewrite Hfresh in H'. by destruct H'.
    + intros H'%Hwf [= <-]. rewrite Hfresh in H'. by destruct H'.
    + apply Hinj.
Qed.

Lemma registry_ok_remove (session_id : string) (w : World) :
  registry_ok w → registry_ok (remove_session session_id w).
Proof.
  intros [Hwf Hinj].
  destruct (remove_session_objects session_id w) as [Hs _].
  split; rewrite ?Hs, remove_session_registry.
  - intros id l [_ H]%lookup_delete_Some. eauto.
  - intros id1 id2 l [_ H1]%lookup_delete_Some [_ H2]%lookup_delete_Some.
    eauto.
Qed.

(** Whatever sessions are created and removed, in whatever order and under
    whatever ids, every registered id refers to an existing session object
    and no two ids share one: a state change made for one session is never
    seen under another id. *)
Theorem registry_run_keeps_sessions_apart
    (ops : list registry_op) (w : World) :
  registry_ok w → registry_ok (registry_run ops w).
Proof.
  unfold registry_run. revert w.
  induction ops as [|[id|id] ops IH]; intros w Hok; simpl; [done|..];
    apply IH; [by apply registry_ok_create | by apply registry_ok_remove].
Qed.

(** From the empty registry: two ids, one of them registered twice, the
    other removed. *)
Lemma registry_run_keeps_sessions_apart_witness :
  registry_ok
    (registry_run [RCreate "a"; RCreate "b"; RCreate "a"; RRemove "b"]
       World_empty).
Proof.
  apply (registry_run_keeps_sessions_apart
           [RCreate "a"; RCreate "b"; RCreate "a"; RRemove "b"] World_empty).
  apply registry_ok_empty.
Defined.

End RegistryProps.

(* ===================================================================== *)
(** * Credentials: get_secret and ApiConfig.initialize                   *)
(* ===================================================================== *)

Module ConfigProps.
Import Inputs MoreInputs Secrets.

(** [get_secret] reads at most one secret version, the latest one of the
    secret in the project named by [PROJECT_ID], and returns its payload;
    what the access raises is raised unchanged.  When the client cannot be
    made, or [PROJECT_ID] is unset or empty, nothing is read and the call
    raises. *)
Theorem get_secret_reads_latest_version_of_project
    (env : SecretManagerEnv) (secret_id : string) :
  let r := get_secret env secret_id in
  (∀ p, SecretManagerServiceClient env = Ok tt →
        environ_PROJECT_ID env = Some p → p ≠ "" →
        r = ([EvAccessSecret
                ("projects/" +:+ p +:+ "/secrets/" +:+ secret_id
                 +:+ "/versions/latest")],
             access_secret_version env
               ("projects/" +:+ p +:+ "/secrets/" +:+ secret_id
                +:+ "/versions/latest")))
  ∧ (SecretManagerServiceClient env = Ok tt →
     truthy_opt (environ_PROJECT_ID env) = false →
     r = ([], Raise (ConfigurationError
                       "PROJECT_ID environment variable is not set")))
  ∧ (∀ e, SecretManagerServiceClient env = Raise e → r = ([], Raise e))
  ∧ (∀ k, r.2 = Ok k →
          ∃ p, environ_PROJECT_ID env = Some p ∧ p ≠ ""
               ∧ r.1 = [EvAccessSecret (secret_name p secret_id)]
               ∧ access_secret_version env (secret_name p secret_id) = Ok k).
Proof.
  cbn zeta. unfold get_secret. split; [|split; [|split]].
  - intros p -> -> Hp. simpl.
    destruct p; [done|]. reflexivity.
  - intros -> ->. done.
  - intros e ->. done.
  - destruct (SecretManagerServiceClient env) as [[]|e]; [|done].
    destruct (environ_PROJECT_ID env) as [[|c p]|]; simpl; try done.
    intros k Hk. exists (String c p). eauto.
Qed.

(** A project with a readable key, one without [PROJECT_ID], and a client
    that cannot be made. *)
Lemma get_secret_reads_latest_version_of_project_witness :
  get_secret secrets_in_project "GOOGLE_API_KEY"
  = ([EvAccessSecret "projects/demo/secrets/GOOGLE_API_KEY/versions/latest"],
     Ok "k-from-secret")
  ∧ get_secret secrets_without_project "GOOGLE_API_KEY"
    = ([], Raise (ConfigurationError
                    "PROJECT_ID environment variable is not set"))
  ∧ get_secret secrets_unreachable "GOOGLE_API_KEY"
    = ([], Raise (OtherException "no default credentials")).
Proof.
  destruct (get_secret_reads_latest_version_of_project secrets_in_project
              "GOOGLE_API_KEY") as (Hread & _).
  destruct (get_secret_reads_latest_version_of_project secrets_without_project
              "GOOGLE_API_KEY") as (_ & Hunset & _).
  destruct (get_secret_reads_latest_version_of_project secrets_unreachable
              "GOOGLE_API_KEY") as (_ & _ & Hclient & _).
  split; [|split].
  - apply (Hread "demo"); [reflexivity | reflexivity | discriminate].
  - apply Hunset; reflexivity.
  - apply Hclient. reflexivity.
Defined.

(** [ApiConfig.initialize], with the key read through [get_secret].
    [use_vertex] is never changed.  With Vertex AI nothing is read or
    changed and the call returns.  Otherwise a key read from the secret
    manager is stored whatever it is (an empty one too) and the environment
    is not consulted; when the secret cannot be read, [api_key] becomes the
    value of the environment variable, replacing a key stored earlier, and
    the call raises a [ConfigurationError] exactly when that value is
    missing or empty.  Nothing else is ever raised. *)
Theorem initialize_resolves_key
    (env : SecretManagerEnv) (key : option string) (api : ApiConfig) :
  let r := initialize (secret_env env key) api in
  use_vertex r.1 = use_vertex api
  ∧ (use_vertex api = true → r = (api, Ok tt))
  ∧ (use_vertex api = false →
     (∀ k, (get_secret env "GOOGLE_API_KEY").2 = Ok k →
           r = ({| use_vertex := false; api_key := Some k |}, Ok tt))
     ∧ (∀ e, (get_secret env "GOOGLE_API_KEY").2 = Raise e →
             api_key r.1 = key
             ∧ (truthy_opt key = true → r.2 = Ok tt)
             ∧ (truthy_opt key = false →
                r.2 = Raise (ConfigurationError
                  "No API key available from Secret Manager or environment"))))
  ∧ (∀ e, r.2 = Raise e →
          e = ConfigurationError
                "No API key available from Secret Manager or environment"
          ∧ truthy_opt (api_key r.1) = false).
Proof.
  cbn zeta. unfold initialize, secret_env.
  cbn [get_secret_GOOGLE_API_KEY getenv_GOOGLE_API_KEY].
  destruct api as [[] old]; cbn [use_vertex negb].
  - split; [done|]. split; [done|]. split; [done|]. by intros e.
  - destruct (get_secret env "GOOGLE_API_KEY").2 as [k|e0]; cbn [api_key].
    + split; [done|]. split; [done|]. split; [|by intros e].
      intros _. split; [by intros k' [= <-] | done].
    + destruct (truthy_opt key) eqn:Hkey; cbn [negb fst snd use_vertex api_key].
      * split; [done|]. split; [done|]. split; [|by intros e].
        intros _. split; [done|]. intros e [= <-]. done.
      * split; [done|]. split; [done|]. split.
        -- intros _. split; [done|]. intros e [= <-]. done.
        -- intros e [= <-]. done.
Qed.

(** An earlier key is lost when the secret manager cannot be reached and
    the environment has no key; with a key in the environment the call
    returns and stores that one. *)
Lemma initialize_resolves_key_witness :
  initialize (secret_env secrets_unreachable None)
    {| use_vertex := false; api_key := Some "earlier" |}
  = ({| use_vertex := false; api_key := None |},
     Raise (ConfigurationError
              "No API key available from Secret Manager or environment"))
  ∧ initialize (secret_env secrets_without_project (Some "k-from-env")) api0
    = ({| use_vertex := false; api_key := Some "k-from-env" |}, Ok tt)
  ∧ initialize (secret_env secrets_in_project (Some "k-from-env")) api0
    = ({| use_vertex := false; api_key := Some "k-from-secret" |}, Ok tt).
Proof.
  split; [|split].
  - destruct (initialize_resolves_key secrets_unreachable None
                {| use_vertex := false; api_key := Some "earlier" |})
      as (Hv & _ & Hdev & _).
    destruct (Hdev eq_refl) as [_ Hfail].
    destruct (Hfail (OtherException "no default credentials") eq_refl)
      as (Hkey & _ & Hraise).
    specialize (Hraise eq_refl).
    destruct (initialize _ _) as [[v k] r]. simpl in *. by subst.
  - destruct (initialize_resolves_key secrets_without_project
                (Some "k-from-env") api0) as (Hv & _ & Hdev & _).
    destruct (Hdev eq_refl) as [_ Hfail].
    destruct (Hfail _ eq_refl) as (Hkey & Hok & _).
    specialize (Hok eq_refl).
    destruct (initialize _ _) as [[v k] r]. simpl in *. by subst.
  - destruct (initialize_resolves_key secrets_in_project
                (Some "k-from-env") api0) as (_ & _ & Hdev & _).
    destruct (Hdev eq_refl) as [Hread _].
    apply Hread. reflexivity.
Defined.

End ConfigProps.

(* ===================================================================== *)
(** * Flags of the environment                                           *)
(* ===================================================================== *)

Module EnvironProps.
Import Environ.

Lemma lower_char_t (c : Ascii.ascii) :
  String (lower_char c) EmptyString = "t"
  ↔ String c EmptyString = "t" ∨ String c EmptyString = "T".
Proof.
  destruct c as [[] [] [] [] [] [] [] []]; vm_compute;
    (split; [intros [=]; auto | intros [[=] | [=]]; done]).
Qed.

Lemma lower_char_r (c : Ascii.ascii) :
  String (lower_char c) EmptyString = "r"
  ↔ String c EmptyString = "r" ∨ String c EmptyString = "R".
Proof.
  destruct c as [[] [] [] [] [] [] [] []]; vm_compute;
    (split; [intros [=]; auto | intros [[=] | [=]]; done]).
Qed.

Lemma lower_char_u (c : Ascii.ascii) :
  String (lower_char c) EmptyString = "u"
  ↔ String c EmptyString = "u" ∨ String c EmptyString = "U".
Proof.
  destruct c as [[] [] [] [] [] [] [] []]; vm_compute;
    (split; [intros [=]; auto | intros [[=] | [=]]; done]).
Qed.

Lemma lower_char_e (c : Ascii.ascii) :
  String (lower_char c) EmptyString = "e"
  ↔ String c EmptyString = "e" ∨ String c EmptyString = "E".
Proof.
  destruct c as [[] [] [] [] [] [] [] []]; vm_compute;
    (split; [intros [=]; auto | intros [[=] | [=]]; done]).
Qed.

Lemma lower_is_true (s : string) : lower s = "true" ↔ spells_true s.
Proof.
  unfold spells_true, letter. split.
  - destruct s as [|t [|r [|u [|e [|x s]]]]]; simpl; try done.
    intros [= Ht Hr Hu He].
    exists t, r, u, e. split; [done|].
    split; [apply lower_char_t; by rewrite Ht|].
    split; [apply lower_char_r; by rewrite Hr|].
    split; [apply lower_char_u; by rewrite Hu|].
    apply lower_char_e; by rewrite He.
  - intros (t & r & u & e & -> & Ht%lower_char_t & Hr%lower_char_r
            & Hu%lower_char_u & He%lower_char_e).
    simpl. injection Ht as ->. injection Hr as ->. injection Hu as ->.
    injection He as ->. done.
Qed.

(** A flag of the environment is on exactly when its value is the word
    true in some letter case: 1, yes, on, or true with a blank around it
    turn it off.  Not set, incremental updates are on and Vertex AI is
    off. *)
Theorem only_the_word_true_sets_a_flag (value : string) :
  (INCREMENTAL_UPDATES_ENABLED_of (Some value) = true ↔ spells_true value)
  ∧ (use_vertex (ApiConfig_new (Some value)) = true ↔ spells_true value)
  ∧ INCREMENTAL_UPDATES_ENABLED_of None = true
  ∧ use_vertex (ApiConfig_new None) = false
  ∧ INCREMENTAL_UPDATES_ENABLED_of (Some "1") = false
  ∧ INCREMENTAL_UPDATES_ENABLED_of (Some "yes") = false
  ∧ INCREMENTAL_UPDATES_ENABLED_of (Some "true ") = false
  ∧ INCREMENTAL_UPDATES_ENABLED_of (Some "TRUE") = true.
Proof.
  unfold INCREMENTAL_UPDATES_ENABLED_of, ApiConfig_new, env_flag.
  cbn [use_vertex default].
  split; [|split; [|repeat split]].
  - rewrite String.eqb_eq. apply lower_is_true.
  - rewrite String.eqb_eq. apply lower_is_true.
Qed.

End EnvironProps.

(* ===================================================================== *)
(** * More on the summary coordinator                                    *)
(* ===================================================================== *)

Module CoordinatorProps.
Import Summary Runs Inputs MoreInputs SummaryProps.

(** ** Stripping *)

Lemma rstrip_rstrip (s : string) : rstrip (rstrip s) = rstrip s.
Proof.
  induction s as [|c s IH]; [done|]. simpl.
  destruct (isspace c && negb (truthy (rstrip s))) eqn:Hc; [done|].
  simpl. by rewrite IH, Hc.
Qed.

Lemma lstrip_starts_black (s : string) : starts_black (lstrip s).
Proof.
  induction s as [|c s IH]; [done|]. simpl.
  by destruct (isspace c) eqn:Hc.
Qed.

Lemma rstrip_starts_black (s : string) :
  starts_black s → starts_black (rstrip s).
Proof. destruct s as [|c s]; [done|]. simpl. intros Hc. by rewrite Hc. Qed.

Lemma lstrip_of_starts_black (s : string) : starts_black s → lstrip s = s.
Proof. destruct s as [|c s]; [done|]. simpl. intros Hc. by rewrite Hc. Qed.

Lemma strip_strip (s : string) : strip (strip s) = strip s.
Proof.
  unfold strip.
  rewrite (lstrip_of_starts_black (rstrip (lstrip s)))
    by apply rstrip_starts_black, lstrip_starts_black.
  apply rstrip_rstrip.
Qed.

Lemma blank_lstrip (s : string) : blank s = true → lstrip s = "".
Proof.
  induction s as [|c s IH]; [done|]. simpl.
  intros [-> Hs]%andb_true_iff. auto.
Qed.

Lemma blank_strip (s : string) : blank s = true → strip s = "".
Proof. intros H. unfold strip. by rewrite blank_lstrip. Qed.

Lemma blank_app (a b : string) :
  blank (a +:+ b) = blank a && blank b.
Proof.
  induction a as [|c a IH]; [done|]. simpl. by rewrite IH, andb_assoc.
Qed.

Lemma blank_join (l : list string) :
  (∀ text, text ∈ l → blank text = true) → blank (join LF l) = true.
Proof.
  unfold join. induction l as [|a l IH]; intros Hall; [done|].
  destruct l as [|b l].
  - simpl. apply Hall. left.
  - change (String.concat LF (a :: b :: l))
      with (a +:+ LF +:+ String.concat LF (b :: l)).
    rewrite !blank_app, (Hall a) by left.
    rewrite IH by (intros text Ht; apply Hall; by right). done.
Qed.

(** ** The text-generation block *)

Section Generation.
Variable cfg : Settings.
Variables (env : TextApiEnv) (api : ApiConfig) (contents : string).

(** How the block ends: without a call and without a text; or after one
    call, with the stripped text of the answer, or with no text when the
    call raised. *)
Lemma generate_summary_shape :
  let g := generate_summary cfg env api contents in
  (g.1.2 = [] ∧ g.2 = "")
  ∨ ∃ client,
      g.1.2 = [EvGenerate client (INCREMENTAL_SUMMARY_MODEL cfg) contents
                 (INCREMENTAL_SUMMARY_MAX_TOKENS cfg)]
      ∧ (g.2 = ""
         ∨ ∃ text,
             responses_generate env client (INCREMENTAL_SUMMARY_MODEL cfg)
               contents (INCREMENTAL_SUMMARY_MAX_TOKENS cfg) = Ok text
             ∧ g.2 = strip (or_empty text)).
Proof.
  cbn zeta. unfold generate_summary, generate_try.
  destruct (initialize (secrets env) api) as [api' [[]|e]]; [|by left].
  destruct (use_vertex api').
  - destruct (negb (truthy_opt (environ_PROJECT_ID env))); [by left|].
    destruct (genai_Client env _) as [[]|e]; [|by left].
    destruct (responses_generate env _ _ _ _) as [text|e] eqn:Hgen;
      simpl; right; eauto 7.
  - destruct (genai_Client env _) as [[]|e]; [|by left].
    destruct (responses_generate env _ _ _ _) as [text|e] eqn:Hgen;
      simpl; right; eauto 7.
Qed.

Lemma generate_summary_stripped :
  strip (generate_summary cfg env api contents).2
  = (generate_summary cfg env api contents).2.
Proof.
  destruct generate_summary_shape
    as [[_ ->] | (c & _ & [-> | (text & _ & ->)])]; [done | done |].
  apply strip_strip.
Qed.

Lemma generate_summary_called :
  (generate_summary cfg env api contents).2 ≠ "" →
  ∃ client,
    (generate_summary cfg env api contents).1.2
    = [EvGenerate client (INCREMENTAL_SUMMARY_MODEL cfg) contents
         (INCREMENTAL_SUMMARY_MAX_TOKENS cfg)].
Proof.
  destruct generate_summary_shape as [[_ ->] | (c & -> & _)]; [done | eauto].
Qed.

End Generation.

(** A compaction cycle makes at most one generation request and at most one
    send, in this order, and the send only after a generation that stored a
    new, non-empty summary.  Its trace is empty (no live session, or the
    configuration or the client failed), or the one request for [user_text]
    (the summary is then the old one and the cycle returns), or that request
    followed by the send of the summary update, whose outcome is the
    cycle's. *)
Theorem cycle_requests_once_then_sends_once
    (cfg : Settings) (env : CallEnv) (api : ApiConfig)
    (self : IncrementalSummaryManager) :
  let o := _update_summary_locked cfg env api self in
  (out_trace o = [] ∧ out_result o = Ok tt
   ∧ running_summary (out_self o) = running_summary self)
  ∨ (∃ client,
       out_trace o
       = [EvGenerate client (INCREMENTAL_SUMMARY_MODEL cfg) (user_text cfg self)
            (INCREMENTAL_SUMMARY_MAX_TOKENS cfg)]
       ∧ out_result o = Ok tt
       ∧ running_summary (out_self o) = running_summary self)
  ∨ (∃ client session,
       out_trace o
       = [EvGenerate client (INCREMENTAL_SUMMARY_MODEL cfg) (user_text cfg self)
            (INCREMENTAL_SUMMARY_MAX_TOKENS cfg);
          EvSend session
            (summary_update_input (running_summary (out_self o)))]
       ∧ out_result o
         = session_send env session
             (summary_update_input (running_summary (out_self o)))
       ∧ genai_session_of (sessions env) self = Some session
       ∧ running_summary (out_self o) ≠ "").
Proof.
  cbn zeta.
  destruct (genai_session_of (sessions env) self) as [session|] eqn:Hs.
  - destruct (decide
      ((generate_summary cfg (text_api env) api (user_text cfg self)).2 = ""))
      as [He|He].
    + rewrite (cycle_aborted _ _ _ _ _ Hs He). cbn zeta.
      cbn [out_trace out_result out_self].
      destruct (generate_summary_shape cfg (text_api env) api
                  (user_text cfg self)) as [[-> _] | (c & -> & _)].
      * by left.
      * right. left. eauto.
    + rewrite (cycle_updated _ _ _ _ _ Hs He). cbn zeta.
      cbn [out_trace out_result out_self].
      destruct (generate_summary_called cfg (text_api env) api
                  (user_text cfg self) He) as [c ->].
      right. right. exists c, session. done.
  - rewrite (cycle_no_session _ _ _ _ Hs). by left.
Qed.

(** The generation request is made only with credentials.  Every request
    recorded carries the configured model, the given contents and the
    configured token limit; with Vertex AI its client is made for the
    project of [PROJECT_ID], which is then set and not empty, at
    [VERTEX_LOCATION] or us-central1; otherwise its client is made with API
    version v1alpha and a key, the one of the secret manager if it can be
    read and else the non-empty one of the environment. *)
Theorem generation_is_requested_with_credentials
    (cfg : Settings) (env : TextApiEnv) (api : ApiConfig) (contents : string)
    (client : ClientArgs) (model c : string) (max_tokens : Z) :
  EvGenerate client model c max_tokens
    ∈ (generate_try cfg env api contents).1.2 →
  model = INCREMENTAL_SUMMARY_MODEL cfg
  ∧ c = contents
  ∧ max_tokens = INCREMENTAL_SUMMARY_MAX_TOKENS cfg
  ∧ ((use_vertex api = true
      ∧ ∃ p, environ_PROJECT_ID env = Some p ∧ p ≠ ""
             ∧ client
               = VertexClient
                   (default "us-central1" (getenv_VERTEX_LOCATION env)) p)
     ∨ (use_vertex api = false
        ∧ ∃ k, client = DevClient "v1alpha" (Some k)
               ∧ (get_secret_GOOGLE_API_KEY (secrets env) = Ok k
                  ∨ ((∃ e, get_secret_GOOGLE_API_KEY (secrets env) = Raise e)
                     ∧ getenv_GOOGLE_API_KEY (secrets env) = Some k
                     ∧ k ≠ "")))).
Proof.
  unfold generate_try, initialize. destruct api as [[] old]; cbn [use_vertex negb].
  - destruct (environ_PROJECT_ID env) as [[|ch p]|] eqn:Hp; simpl;
      try by intros ?%elem_of_nil.
    destruct (genai_Client env _) as [[]|e]; [|simpl; by intros ?%elem_of_nil].
    destruct (responses_generate env _ _ _ _) as [text|e]; simpl;
      intros [= -> -> -> ->]%list_elem_of_singleton;
      (split; [done|]; split; [done|]; split; [done|]; left; split; [done|];
       exists (String ch p); done).
  - destruct (get_secret_GOOGLE_API_KEY (secrets env)) as [k|e0] eqn:Hsec.
    + cbn [use_vertex api_key].
      destruct (genai_Client env _) as [[]|e]; [|simpl; by intros ?%elem_of_nil].
      destruct (responses_generate env _ _ _ _) as [text|e]; simpl;
        intros [= -> -> -> ->]%list_elem_of_singleton;
        (split; [done|]; split; [done|]; split; [done|]; right; split; [done|];
         exists k; split; [done|]; by left).
    + cbn [api_key].
      destruct (getenv_GOOGLE_API_KEY (secrets env)) as [[|ch k]|] eqn:Hkey;
        simpl; try by intros ?%elem_of_nil.
      destruct (genai_Client env _) as [[]|e]; [|simpl; by intros ?%elem_of_nil].
      destruct (responses_generate env _ _ _ _) as [text|e]; simpl;
        intros [= -> -> -> ->]%list_elem_of_singleton;
        (split; [done|]; split; [done|]; split; [done|]; right; split; [done|];
         exists (String ch k); split; [done|]; right; eauto).
Qed.

(** With the key of the environment, the secret manager being out of
    reach. *)
Lemma generation_is_requested_with_credentials_witness :
  (generate_try defaults text_api_env_key api0 "Slide 1.").1.2
  = [EvGenerate (DevClient "v1alpha" (Some "k-from-env")) "gemini-2.5-flash"
       "Slide 1." 1024]
  ∧ getenv_GOOGLE_API_KEY (secrets text_api_env_key) = Some "k-from-env".
Proof.
  split; [vm_compute; reflexivity|].
  destruct (generation_is_requested_with_credentials defaults text_api_env_key
              api0 "Slide 1." (DevClient "v1alpha" (Some "k-from-env"))
              "gemini-2.5-flash" "Slide 1." 1024)
    as (_ & _ & _ & [[Hv _] | [_ (k & Hc & [Hs | (_ & Hk & _)])]]).
  - vm_compute. left.
  - discriminate Hv.
  - discriminate Hs.
  - injection Hc as <-. exact Hk.
Defined.

(** ** Runs of the coordinator *)

Lemma keeps_refl (self : IncrementalSummaryManager) : keeps self self.
Proof. by repeat split. Qed.

Lemma keeps_trans (a b c : IncrementalSummaryManager) :
  keeps a b → keeps b c → keeps a c.
Proof.
  intros (Hs & Hp & Hl & Hb & Hok & Hne) (Hs' & Hp' & Hl' & Hb' & Hok' & Hne').
  repeat split; [congruence.. | auto | auto | auto].
Qed.

Lemma keeps_add_transcript (text : string) (self : IncrementalSummaryManager) :
  keeps self (add_transcript text self).
Proof.
  unfold add_transcript. destruct (truthy text) eqn:Ht; [|apply keeps_refl].
  repeat split; try done. simpl.
  intros Hok t [H | ->%list_elem_of_singleton]%elem_of_app; [by apply Hok|].
  by apply truthy_true.
Qed.

Section Steps.
Variable cfg : Settings.

(** What a cycle does to the manager. *)
Lemma cycle_self env api self :
  let c := _update_summary_locked cfg env api self in
  out_self c = self
  ∨ out_self c = with_transcript_buffer [] self
  ∨ ∃ s, s ≠ "" ∧ strip s = s
         ∧ out_self c
           = with_running_summary s (with_transcript_buffer [] self).
Proof.
  cbn zeta.
  destruct (genai_session_of (sessions env) self) as [session|] eqn:Hs.
  - destruct (decide
      ((generate_summary cfg (text_api env) api (user_text cfg self)).2 = ""))
      as [He|He].
    + rewrite (cycle_aborted _ _ _ _ _ Hs He). right. by left.
    + rewrite (cycle_updated _ _ _ _ _ Hs He). right. right.
      eexists. split; [exact He|]. split; [apply generate_summary_stripped|done].
  - rewrite (cycle_no_session _ _ _ _ Hs). by left.
Qed.

Lemma keeps_cycle env api self :
  keeps self (out_self (_update_summary_locked cfg env api self))
  ∧ _last_update_ts (out_self (_update_summary_locked cfg env api self))
    = _last_update_ts self.
Proof.
  destruct (cycle_self env api self) as [-> | [-> | (s & Hne & Hstrip & ->)]].
  - split; [apply keeps_refl | done].
  - split; [|done]. repeat split; try done. intros _ t. simpl.
    by intros ?%elem_of_nil.
  - split; [|done]. repeat split; try done. intros _ t. simpl.
    by intros ?%elem_of_nil.
Qed.

(** The two ways through [maybe_update] when it returns. *)
Lemma maybe_update_cases env api self o :
  maybe_update cfg env api self = Some o →
  o = unchanged self api
  ∨ (_lock self = false
     ∧ transcript_buffer self ≠ []
     ∧ INCREMENTAL_SUMMARY_INTERVAL_SEC cfg
       ≤ now_locked (clock env) - _last_update_ts self
     ∧ let c := _update_summary_locked cfg env api (with_lock true self) in
       o = {| out_self :=
                with_lock false
                  (match out_result c with
                   | Ok _ =>
                       with_last_update_ts (now_done (clock env)) (out_self c)
                   | Raise _ => out_self c
                   end);
              out_api := out_api c;
              out_trace := EvCycle :: out_trace c;
              out_result := Ok tt |}).
Proof.
  unfold maybe_update, unchanged. cbv zeta beta.
  destruct (negb (INCREMENTAL_UPDATES_ENABLED cfg)); [intros [= <-]; by left|].
  destruct (_ <? _); [intros [= <-]; by left|].
  case_bool_decide as Hbuf; [intros [= <-]; by left|].
  destruct (_lock self) eqn:Hlock; [done|].
  cbn [_last_update_ts with_lock].
  destruct (_ <? _) eqn:Ht.
  - intros [= <-]. left. by rewrite with_lock_twice, with_lock_same.
  - apply Z.ltb_ge in Ht. intros Ho. right.
    split; [done|]. split; [done|]. split; [done|].
    cbn zeta. destruct (out_result _); by injection Ho as <-.
Qed.

Lemma keeps_maybe_update env api self o :
  maybe_update cfg env api self = Some o → keeps self (out_self o).
Proof.
  intros [-> | (Hlock & _ & _ & ->)]%maybe_update_cases; [apply keeps_refl|].
  cbn zeta. cbn [out_self].
  destruct (keeps_cycle env api (with_lock true self))
    as [(Hs & Hp & _ & Hb & Hok & Hne) _].
  repeat split.
  - by destruct (out_result _).
  - by destruct (out_result _).
  - done.
  - intros H. specialize (Hb H). by destruct (out_result _).
  - intros H. specialize (Hok H). by destruct (out_result _).
  - intros H. specialize (Hne H). by destruct (out_result _).
Qed.

Lemma run_ops_keeps ops api self self' api' trace :
  run_ops cfg ops api self = Some (self', api', trace) → keeps self self'.
Proof.
  revert api self self' api' trace.
  induction ops as [|[text|env] ops IH]; intros api self self' api' trace;
    simpl.
  - intros [= <- _ _]. apply keeps_refl.
  - intros H%IH. eapply keeps_trans; [apply keeps_add_transcript | done].
  - destruct (maybe_update cfg env api self) as [o|] eqn:Ho; [|done].
    destruct (run_ops cfg ops (out_api o) (out_self o))
      as [[[s a] t]|] eqn:Hrun; [|done].
    intros [= <- _ _]. apply IH in Hrun.
    eapply keeps_trans; [by eapply keeps_maybe_update | done].
Qed.

End Steps.

(** Over any run of [add_transcript] and [maybe_update] calls that returns,
    the manager stays with its session, keeps its part id and leaves the
    lock as it found it; if no buffered fragment was empty none is; if the
    summary had no white space at its ends it has none; and a summary that
    was there is never emptied. *)
Theorem run_keeps_manager_in_shape
    (cfg : Settings) (ops : list op) (api api' : ApiConfig)
    (self self' : IncrementalSummaryManager) (trace : list event) :
  run_ops cfg ops api self = Some (self', api', trace) →
  session_state self' = session_state self
  ∧ summary_part_id self' = summary_part_id self
  ∧ _lock self' = _lock self
  ∧ (buffer_ok self → buffer_ok self')
  ∧ (summary_ok self → summary_ok self')
  ∧ (running_summary self ≠ "" → running_summary self' ≠ "").
Proof. apply run_ops_keeps. Qed.

(** The run [fed_between_calls], from a manager of session 0 made by
    [__init__]. *)
Lemma run_keeps_manager_in_shape_witness :
  ∃ self' api' trace,
    run_ops defaults fed_between_calls api0 (manager_with "" [])
    = Some (self', api', trace)
    ∧ session_state self' = 0%nat
    ∧ summary_part_id self' = "running_summary"
    ∧ _lock self' = false.
Proof.
  destruct (run_ops defaults fed_between_calls api0 (manager_with "" []))
    as [[[s a] t]|] eqn:Hrun; [|by vm_compute in Hrun].
  exists s, a, t. split; [reflexivity|].
  destruct (run_keeps_manager_in_shape defaults fed_between_calls api0 a
              (manager_with "" []) s t Hrun) as (Hs & Hp & Hl & _).
  split; [exact Hs|]. split; [exact Hp | exact Hl].
Defined.

Section Stamps.
Variable cfg : Settings.

Lemma maybe_update_ts env api self o :
  0 ≤ INCREMENTAL_SUMMARY_INTERVAL_SEC cfg →
  now_locked (clock env) ≤ now_done (clock env) →
  maybe_update cfg env api self = Some o →
  _last_update_ts self ≤ _last_update_ts (out_self o).
Proof.
  intros Hint Hclock [-> | (_ & _ & Hgate & ->)]%maybe_update_cases; [done|].
  cbn zeta. cbn [out_self].
  destruct (keeps_cycle cfg env api (with_lock true self)) as [_ Hts].
  destruct (out_result _); cbn; [lia|]. rewrite Hts. done.
Qed.

Lemma add_transcript_ts text self :
  _last_update_ts (add_transcript text self) = _last_update_ts self.
Proof. unfold add_transcript. by destruct (truthy text). Qed.

Lemma run_ops_ts ops api self self' api' trace :
  0 ≤ INCREMENTAL_SUMMARY_INTERVAL_SEC cfg →
  (∀ env, env ∈ update_envs ops →
          now_locked (clock env) ≤ now_done (clock env)) →
  run_ops cfg ops api self = Some (self', api', trace) →
  _last_update_ts self ≤ _last_update_ts self'.
Proof.
  intros Hint. revert api self self' api' trace.
  induction ops as [|[text|env] ops IH]; intros api self self' api' trace;
    simpl.
  - intros _ [= <- _ _]. done.
  - intros Hclock H%IH; [|done]. by rewrite add_transcript_ts in H.
  - intros Hclock.
    destruct (maybe_update cfg env api self) as [o|] eqn:Ho; [|done].
    destruct (run_ops cfg ops (out_api o) (out_self o))
      as [[[s a] t]|] eqn:Hrun; [|done].
    intros [= <- _ _]. apply IH in Hrun; [|intros e He; apply Hclock; by right].
    apply maybe_update_ts in Ho; [lia | done | apply Hclock; left].
Qed.

(** What the trace and the manager say of the summary agree.  After a call
    of [maybe_update], if the call sent something the manager holds the
    summary that was sent last, and it is not empty; otherwise it holds the
    summary it held before. *)
Lemma maybe_update_last_sent env api self o :
  maybe_update cfg env api self = Some o →
  match last_sent (out_trace o) with
  | Some input =>
      input = summary_update_input (running_summary (out_self o))
      ∧ running_summary (out_self o) ≠ ""
  | None => running_summary (out_self o) = running_summary self
  end.
Proof.
  intros [-> | (_ & _ & _ & ->)]%maybe_update_cases; [done|].
  cbn zeta. cbn [out_self out_trace last_sent].
  assert (∀ c : Outcome,
    running_summary
      (with_lock false
         (match out_result c with
          | Ok _ => with_last_update_ts (now_done (clock env)) (out_self c)
          | Raise _ => out_self c
          end)) = running_summary (out_self c)) as Hrs
    by (intros c; by destruct (out_result c)).
  rewrite Hrs.
  destruct (genai_session_of (sessions env) (with_lock true self))
    as [session|] eqn:Hs.
  - destruct (decide
      ((generate_summary cfg (text_api env) api
          (user_text cfg (with_lock true self))).2 = "")) as [He|He].
    + rewrite (cycle_aborted _ _ _ _ _ Hs He). cbn zeta.
      cbn [out_trace out_self].
      destruct (generate_summary_shape cfg (text_api env) api
                  (user_text cfg (with_lock true self)))
        as [[-> _] | (c & -> & _)]; done.
    + rewrite (cycle_updated _ _ _ _ _ Hs He). cbn zeta.
      cbn [out_trace out_self].
      destruct (generate_summary_called cfg (text_api env) api
                  (user_text cfg (with_lock true self)) He) as [c ->].
      done.
  - by rewrite (cycle_no_session _ _ _ _ Hs).
Qed.

Lemma last_sent_app (t1 t2 : list event) :
  last_sent (t1 ++ t2)
  = match last_sent t2 with
    | Some later => Some later
    | None => last_sent t1
    end.
Proof.
  induction t1 as [|[| |session input] t1 IH]; simpl.
  - by destruct (last_sent t2).
  - done.
  - done.
  - rewrite IH. destruct (last_sent t2); [done|]. by destruct (last_sent t1).
Qed.

Lemma add_transcript_summary text self :
  running_summary (add_transcript text self) = running_summary self.
Proof. unfold add_transcript. by destruct (truthy text). Qed.

Lemma run_ops_last_sent ops api self self' api' trace :
  run_ops cfg ops api self = Some (self', api', trace) →
  match last_sent trace with
  | Some input =>
      input = summary_update_input (running_summary self')
      ∧ running_summary self' ≠ ""
  | None => running_summary self' = running_summary self
  end.
Proof.
  revert api self self' api' trace.
  induction ops as [|[text|env] ops IH]; intros api self self' api' trace;
    simpl.
  - by intros [= <- _ <-].
  - intros H%IH. by rewrite add_transcript_summary in H.
  - destruct (maybe_update cfg env api self) as [o|] eqn:Ho; [|done].
    destruct (run_ops cfg ops (out_api o) (out_self o))
      as [[[s a] t]|] eqn:Hrun; [|done].
    intros [= <- _ <-]. apply IH in Hrun. apply maybe_update_last_sent in Ho.
    rewrite last_sent_app. destruct (last_sent t); [done|].
    rewrite Hrun. done.
Qed.

End Stamps.

(** With a non-negative interval and a clock that does not run backwards
    during a call, [_last_update_ts] never decreases over a run of
    [add_transcript] and [maybe_update] calls. *)
Theorem last_update_ts_never_goes_back
    (cfg : Settings) (ops : list op) (api api' : ApiConfig)
    (self self' : IncrementalSummaryManager) (trace : list event) :
  0 ≤ INCREMENTAL_SUMMARY_INTERVAL_SEC cfg →
  (∀ env, env ∈ update_envs ops →
          now_locked (clock env) ≤ now_done (clock env)) →
  run_ops cfg ops api self = Some (self', api', trace) →
  _last_update_ts self ≤ _last_update_ts self'.
Proof. apply run_ops_ts. Qed.

(** The run [fed_between_calls]: the stamp goes from 0 to 105. *)
Lemma last_update_ts_never_goes_back_witness :
  ∃ self' api' trace,
    run_ops defaults fed_between_calls api0 (manager_with "" [])
    = Some (self', api', trace)
    ∧ 0 ≤ _last_update_ts self'.
Proof.
  destruct (run_ops defaults fed_between_calls api0 (manager_with "" []))
    as [[[s a] t]|] eqn:Hrun; [|by vm_compute in Hrun].
  exists s, a, t. split; [reflexivity|].
  apply (last_update_ts_never_goes_back defaults fed_between_calls api0 a
           (manager_with "" []) s t); [done | | exact Hrun].
  intros e He. repeat (apply elem_of_cons in He as [-> | He]); [done..|].
  by apply elem_of_nil in He.
Defined.

(** The manager and the live session agree on the summary, as far as the
    sends go: over any run of [add_transcript] and [maybe_update] calls that
    returns, if an update was sent the manager holds exactly the summary of
    the last update sent, and it is not empty; if none was sent the manager
    holds the summary it started with. *)
Theorem manager_holds_the_summary_sent_last
    (cfg : Settings) (ops : list op) (api api' : ApiConfig)
    (self self' : IncrementalSummaryManager) (trace : list event) :
  run_ops cfg ops api self = Some (self', api', trace) →
  match last_sent trace with
  | Some input =>
      input = summary_update_input (running_summary self')
      ∧ running_summary self' ≠ ""
  | None => running_summary self' = running_summary self
  end.
Proof. apply run_ops_last_sent. Qed.

(** The run [refilled_after_failed_send]: two updates are sent, the first
    of which fails, and the manager holds the second summary. *)
Lemma manager_holds_the_summary_sent_last_witness :
  ∃ self' api' trace,
    run_ops defaults refilled_after_failed_send api0 (manager_with "" slides)
    = Some (self', api', trace)
    ∧ last_sent trace = Some (summary_update_input "Summary: X, Y, Z.")
    ∧ summary_update_input "Summary: X, Y, Z."
      = summary_update_input (running_summary self').
Proof.
  destruct (run_ops defaults refilled_after_failed_send api0
              (manager_with "" slides))
    as [[[s a] t]|] eqn:Hrun; [|by vm_compute in Hrun].
  exists s, a, t. split; [reflexivity|].
  pose proof (manager_holds_the_summary_sent_last defaults
                refilled_after_failed_send api0 a (manager_with "" slides)
                s t Hrun) as H.
  assert (last_sent t = Some (summary_update_input "Summary: X, Y, Z."))
    as Hlast.
  { vm_compute in Hrun. injection Hrun as _ _ <-. reflexivity. }
  rewrite Hlast in H. split; [exact Hlast | apply H].
Defined.

(** [inject_summary_for_questions] follows the updates.  On a manager that
    started without a summary, after any run of [add_transcript] and
    [maybe_update] calls: if no update was sent, the call sends nothing and
    returns; if one was sent and a live session is attached, it sends exactly
    one message, the question prompt on the summary of the last update sent,
    and its outcome is that of the send (a failure of the send is
    raised). *)
Theorem inject_asks_on_the_summary_sent_last
    (cfg : Settings) (ops : list op) (api api' : ApiConfig)
    (self self' : IncrementalSummaryManager) (trace : list event)
    (env : CallEnv) :
  running_summary self = "" →
  run_ops cfg ops api self = Some (self', api', trace) →
  (last_sent trace = None →
   inject_summary_for_questions env self' = ([], Ok tt))
  ∧ (∀ update session,
       last_sent trace = Some update →
       genai_session_of (sessions env) self' = Some session →
       update = summary_update_input (running_summary self')
       ∧ inject_summary_for_questions env self'
         = ([EvSend session (questions_input (running_summary self'))],
            session_send env session
              (questions_input (running_summary self')))).
Proof.
  intros Hempty Hrun%run_ops_last_sent. unfold inject_summary_for_questions.
  split.
  - intros Hnone. rewrite Hnone in Hrun. rewrite Hrun, Hempty.
    by destruct (genai_session_of _ _).
  - intros update session Hsome Hs. rewrite Hsome in Hrun.
    destruct Hrun as [-> Hne]. split; [done|].
    rewrite Hs. apply truthy_true in Hne. by rewrite Hne.
Qed.

(** After the run [fed_between_calls] the question prompt is sent on the
    summary of the first slide; after fragments alone nothing is sent. *)
Lemma inject_asks_on_the_summary_sent_last_witness :
  (∃ self' api' trace,
     run_ops defaults fed_between_calls api0 (manager_with "" [])
     = Some (self', api', trace)
     ∧ (inject_summary_for_questions
          (env_at 200 (Some 7%nat) (Ok None) (Ok tt)) self').1
       = [EvSend 7%nat (questions_input "Summary: X.")])
  ∧ inject_summary_for_questions (env_at 200 (Some 7%nat) (Ok None) (Ok tt))
      (add_transcript "Slide 1 covers X." (manager_with "" []))
    = ([], Ok tt).
Proof.
  split.
  - destruct (run_ops defaults fed_between_calls api0 (manager_with "" []))
      as [[[s a] t]|] eqn:Hrun; [|by vm_compute in Hrun].
    exists s, a, t. split; [reflexivity|].
    destruct (inject_asks_on_the_summary_sent_last defaults fed_between_calls
                api0 a (manager_with "" []) s t
                (env_at 200 (Some 7%nat) (Ok None) (Ok tt)) eq_refl Hrun)
      as [_ Hsent].
    vm_compute in Hrun. injection Hrun as <- _ <-.
    destruct (Hsent (summary_update_input "Summary: X.") 7%nat eq_refl eq_refl)
      as [_ ->].
    reflexivity.
  - apply (inject_asks_on_the_summary_sent_last defaults
             [OpAddTranscript "Slide 1 covers X."] api0 api0
             (manager_with "" [])
             (add_transcript "Slide 1 covers X." (manager_with "" [])) []
             (env_at 200 (Some 7%nat) (Ok None) (Ok tt)));
      reflexivity.
Defined.

Lemma append_empty (s : string) : s +:+ "" = s.
Proof.
  induction s as [|c s IH]; [done|].
  change (String c (s +:+ "") = String c s). by rewrite IH.
Qed.

Lemma new_chunk_blank (self : IncrementalSummaryManager) :
  (∀ text, text ∈ transcript_buffer self → blank text = true) →
  new_chunk self = "".
Proof. intros H. unfold new_chunk. by apply blank_strip, blank_join. Qed.

(** Fragments of white space count as transcript.  With the feature on,
    the interval elapsed and the lock free, a buffer that is not empty and
    holds only white space still starts a compaction cycle; the new chunk
    of that cycle is empty, every generation request it makes ends with the
    empty chunk, and with a live session the buffer is cleared. *)
Theorem blank_buffer_is_compacted_with_empty_chunk
    (cfg : Settings) (env : CallEnv) (api : ApiConfig)
    (self : IncrementalSummaryManager) :
  INCREMENTAL_UPDATES_ENABLED cfg = true →
  INCREMENTAL_SUMMARY_INTERVAL_SEC cfg
    ≤ now_check (clock env) - _last_update_ts self →
  INCREMENTAL_SUMMARY_INTERVAL_SEC cfg
    ≤ now_locked (clock env) - _last_update_ts self →
  _lock self = false →
  transcript_buffer self ≠ [] →
  (∀ text, text ∈ transcript_buffer self → blank text = true) →
  new_chunk self = ""
  ∧ ∃ o, maybe_update cfg env api self = Some o
         ∧ EvCycle ∈ out_trace o
         ∧ (∀ session,
              genai_session_of (sessions env) self = Some session →
              transcript_buffer (out_self o) = [])
         ∧ ∀ client model contents max_tokens,
             EvGenerate client model contents max_tokens ∈ out_trace o →
             contents
             = instruction cfg self +:+ LF +:+ LF
               +:+ "New transcript chunk to incorporate:" +:+ LF.
Proof.
  intros Hflag Ht1 Ht2 Hlock Hbuf Hblank.
  pose proof (new_chunk_blank self Hblank) as Hchunk.
  split; [done|]. eexists. split; [by apply maybe_update_open|].
  cbn [out_trace out_self]. split; [left|]. split.
  - intros session Hs.
    destruct (decide
      ((generate_summary cfg (text_api env) api
          (user_text cfg (with_lock true self))).2 = "")) as [He|He].
    + rewrite (cycle_aborted cfg env api (with_lock true self) session Hs He).
      done.
    + rewrite (cycle_updated cfg env api (with_lock true self) session Hs He).
      cbn zeta. cbn [out_result out_self]. by destruct (session_send _ _ _).
  - intros client model contents max_tokens
      [[=] | [[c Hev] | (session & _ & Hev)]%cycle_trace]%elem_of_cons;
      [|done].
    injection Hev as _ _ -> _. rewrite user_text_with_lock.
    unfold user_text. rewrite Hchunk.
    by rewrite (append_empty LF).
Qed.

(** A line feed and a space were fed to the manager. *)
Lemma blank_buffer_is_compacted_with_empty_chunk_witness :
  let self := add_transcript " " (add_transcript LF (manager_with "" [])) in
  transcript_buffer self = [LF; " "]
  ∧ new_chunk self = ""
  ∧ ∃ o, maybe_update defaults
           (env_at 100 (Some 7%nat) (Ok (Some "Nothing yet.")) (Ok tt)) api0
           self = Some o
         ∧ EvCycle ∈ out_trace o.
Proof.
  split; [reflexivity|].
  destruct (blank_buffer_is_compacted_with_empty_chunk defaults
              (env_at 100 (Some 7%nat) (Ok (Some "Nothing yet.")) (Ok tt)) api0
              (add_transcript " " (add_transcript LF (manager_with "" []))))
    as (Hchunk & o & Ho & Hcycle & _);
    [reflexivity | done | done | reflexivity | discriminate | |].
  - intros text Ht. repeat (apply elem_of_cons in Ht as [-> | Ht]); [done..|].
    by apply elem_of_nil in Ht.
  - split; [exact Hchunk|]. exists o. split; [exact Ho | exact Hcycle].
Defined.

(** With the feature flag off nothing is ever compacted: any run of
    [add_transcript] and [maybe_update] calls returns, whatever the state of
    the lock, without a cycle and without a call to the outside; the summary
    and the time stamp stay, and the buffer only grows, by every non-empty
    fragment fed, in order. *)
Theorem feature_off_only_buffers
    (cfg : Settings) (ops : list op) (api : ApiConfig)
    (self : IncrementalSummaryManager) :
  INCREMENTAL_UPDATES_ENABLED cfg = false →
  ∃ self',
    run_ops cfg ops api self = Some (self', api, [])
    ∧ transcript_buffer self'
      = transcript_buffer self ++ List.filter truthy (fed_texts ops)
    ∧ running_summary self' = running_summary self
    ∧ _last_update_ts self' = _last_update_ts self.
Proof.
  intros Hoff. revert self.
  induction ops as [|[text|env] ops IH]; intros self; simpl.
  - exists self. by rewrite app_nil_r.
  - destruct (IH (add_transcript text self)) as (s & -> & Hbuf & Hsum & Hts).
    exists s. split; [done|].
    rewrite Hbuf, Hsum, Hts, add_transcript_summary, add_transcript_ts.
    split; [|done]. unfold add_transcript.
    destruct (truthy text); simpl; [by rewrite <- app_assoc | done].
  - rewrite maybe_update_gated by (by left).
    cbn [unchanged out_api out_self out_trace].
    destruct (IH self) as (s & -> & H). by exists s.
Qed.

(** The run [fed_between_calls] with the flag off. *)
Lemma feature_off_only_buffers_witness :
  ∃ self',
    run_ops settings_off fed_between_calls api0 (manager_with "" [])
    = Some (self', api0, [])
    ∧ transcript_buffer self' = slides.
Proof.
  destruct (feature_off_only_buffers settings_off fed_between_calls api0
              (manager_with "" []) eq_refl) as (s & Hrun & Hbuf & _).
  exists s. split; [exact Hrun | exact Hbuf].
Defined.

End CoordinatorProps.

(* ===================================================================== *)
(** * More on the tool executor                                          *)
(* ===================================================================== *)

Module ExecutorProps.
Import Tools Inputs MoreInputs.

(** With the table of config.py, which configures no tool, every call of
    [execute_tool] answers that the tool is unknown and makes no network
    call, whatever the tool name, the parameters and the network. *)
Theorem shipped_table_knows_no_tool
    (env : ToolEnv) (tool_name : string) (params : list (string * pyval)) :
  execute_tool CLOUD_FUNCTIONS_default env tool_name params
  = ([], Ok (error_object ("Unknown tool: " +:+ tool_name))).
Proof.
  unfold_execute_tool. unfold CLOUD_FUNCTIONS_default.
  by rewrite lookup_empty.
Qed.

(** For a configured tool, when the request is answered with status 200 and
    a body that parses, and both blocks are left without an error,
    [execute_tool] makes exactly one GET, to the tool's URL with the encoded
    parameters, and returns the parsed body as it is. *)
Theorem execute_tool_returns_parsed_body
    (CLOUD_FUNCTIONS : gmap string (option string)) (env : ToolEnv)
    (tool_name : string) (params : list (string * pyval))
    (base_url : option string) (query_string body : string)
    (response : Response) (v : pyval) :
  CLOUD_FUNCTIONS !! tool_name = Some base_url →
  urlencode env params = Ok query_string →
  ClientSession env = Ok tt →
  session_get env (function_url params base_url query_string) = Ok response →
  text response = Ok body →
  status response = 200 →
  json response = Ok v →
  release response = Ok tt →
  session_close env = Ok tt →
  execute_tool CLOUD_FUNCTIONS env tool_name params
  = ([EvGet (function_url params base_url query_string)], Ok v).
Proof.
  intros Ht Hq Hs Hg Hb Hst Hj Hr Hc.
  unfold_execute_tool. rewrite Ht, Hq. simpl. rewrite Hs, Hg. simpl.
  rewrite Hb. simpl. rewrite Hst. simpl. by rewrite Hj, Hr, Hc.
Qed.

(** The endpoint answers a JSON object. *)
Lemma execute_tool_returns_parsed_body_witness :
  execute_tool one_tool (endpoint (Ok response_weather)) "search"
    [("q", PStr "x")]
  = ([EvGet (Some "https://example.test/search?q=x")],
     Ok (PDict [("temperature", PInt 21)])).
Proof.
  apply (execute_tool_returns_parsed_body one_tool
           (endpoint (Ok response_weather)) "search" [("q", PStr "x")]
           (Some "https://example.test/search") "q=x" "{}" response_weather
           (PDict [("temperature", PInt 21)])); reflexivity.
Defined.

(** The message for an exception that reaches the outer handlers. *)
Lemma execute_tool_close_raises
    (CLOUD_FUNCTIONS : gmap string (option string)) (env : ToolEnv)
    (tool_name : string) (params : list (string * pyval))
    (base_url : option string) (query_string : string) (e : exn) :
  CLOUD_FUNCTIONS !! tool_name = Some base_url →
  urlencode env params = Ok query_string →
  ClientSession env = Ok tt →
  session_close env = Raise e →
  (execute_tool CLOUD_FUNCTIONS env tool_name params).2
  = Ok (error_object
          ((if is_ClientError e then "Failed to call cloud function: "
            else "Tool execution failed: ") +:+ str_of_exn e)).
Proof.
  intros Ht Hq Hs Hc.
  unfold_execute_tool. rewrite Ht, Hq. simpl. rewrite Hs, Hc. simpl.
  repeat case_answer; by destruct e.
Qed.

(** Which error object a failure gives.  An exception from encoding the
    parameters, from opening the session or from the request gives
    ["Failed to call cloud function: <message>"] when it is an
    [aiohttp.ClientError] and ["Tool execution failed: <message>"]
    otherwise, and the first two make no network call.  A body of a 200
    response that does not parse gives
    ["Invalid JSON response from cloud function: <message>"] whatever the
    class of the exception.  And an exception raised on closing the session
    replaces whatever the call had to return, a parsed body included. *)
Theorem execute_tool_error_messages
    (CLOUD_FUNCTIONS : gmap string (option string)) (env : ToolEnv)
    (tool_name : string) (params : list (string * pyval))
    (base_url : option string) :
  CLOUD_FUNCTIONS !! tool_name = Some base_url →
  let r := execute_tool CLOUD_FUNCTIONS env tool_name params in
  let outer (e : exn) :=
    error_object
      ((if is_ClientError e then "Failed to call cloud function: "
        else "Tool execution failed: ") +:+ str_of_exn e) in
  (∀ e, urlencode env params = Raise e → r = ([], Ok (outer e)))
  ∧ (∀ q e, urlencode env params = Ok q → ClientSession env = Raise e →
            r = ([], Ok (outer e)))
  ∧ (∀ q e, urlencode env params = Ok q → ClientSession env = Ok tt →
            session_get env (function_url params base_url q) = Raise e →
            session_close env = Ok tt →
            r = ([EvGet (function_url params base_url q)], Ok (outer e)))
  ∧ (∀ q response body e,
       urlencode env params = Ok q → ClientSession env = Ok tt →
       session_get env (function_url params base_url q) = Ok response →
       text response = Ok body → status response = 200 →
       json response = Raise e →
       release response = Ok tt → session_close env = Ok tt →
       r = ([EvGet (function_url params base_url q)],
            Ok (error_object ("Invalid JSON response from cloud function: "
                              +:+ str_of_exn e))))
  ∧ (∀ q e, urlencode env params = Ok q → ClientSession env = Ok tt →
            session_close env = Raise e → r.2 = Ok (outer e)).
Proof.
  intros Ht. cbn zeta. split; [|split; [|split; [|split]]].
  - intros e He. unfold_execute_tool. rewrite Ht, He. simpl. by destruct e.
  - intros q e Hq Hs. unfold_execute_tool. rewrite Ht, Hq. simpl.
    rewrite Hs. simpl. by destruct e.
  - intros q e Hq Hs Hg Hc. unfold_execute_tool. rewrite Ht, Hq. simpl.
    rewrite Hs, Hg. simpl. rewrite Hc. by destruct e.
  - intros q response body e Hq Hs Hg Hb Hst Hj Hr Hc.
    unfold_execute_tool. rewrite Ht, Hq. simpl. rewrite Hs, Hg. simpl.
    rewrite Hb. simpl. rewrite Hst. simpl. by rewrite Hj, Hr, Hc.
  - intros q e Hq Hs Hc. by eapply execute_tool_close_raises.
Qed.

(** A request that cannot connect; a body that is not JSON, the parser
    raising a client error; and a good answer lost on closing the
    session. *)
Lemma execute_tool_error_messages_witness :
  execute_tool one_tool
    (endpoint (Raise (ClientError "Cannot connect to host"))) "search"
    [("q", PStr "x")]
  = ([EvGet (Some "https://example.test/search?q=x")],
     Ok (PDict [("error",
                 PStr "Failed to call cloud function: Cannot connect to host")]))
  ∧ execute_tool one_tool (endpoint (Ok response_wrong_type)) "search"
      [("q", PStr "x")]
    = ([EvGet (Some "https://example.test/search?q=x")],
       Ok (PDict [("error",
                   PStr "Invalid JSON response from cloud function: unexpected mimetype")]))
  ∧ (execute_tool one_tool endpoint_failing_close "search"
       [("q", PStr "x")]).2
    = Ok (PDict [("error", PStr "Tool execution failed: Session is closed")]).
Proof.
  split; [|split].
  - destruct (execute_tool_error_messages one_tool
                (endpoint (Raise (ClientError "Cannot connect to host")))
                "search" [("q", PStr "x")]
                (Some "https://example.test/search") eq_refl)
      as (_ & _ & Hget & _).
    apply (Hget "q=x" (ClientError "Cannot connect to host")); reflexivity.
  - destruct (execute_tool_error_messages one_tool
                (endpoint (Ok response_wrong_type))
                "search" [("q", PStr "x")]
                (Some "https://example.test/search") eq_refl)
      as (_ & _ & _ & Hjson & _).
    apply (Hjson "q=x" response_wrong_type "<html>"
             (ClientError "unexpected mimetype")); reflexivity.
  - destruct (execute_tool_error_messages one_tool endpoint_failing_close
                "search" [("q", PStr "x")]
                (Some "https://example.test/search") eq_refl)
      as (_ & _ & _ & _ & Hclose).
    apply (Hclose "q=x" (OtherException "Session is closed")); reflexivity.
Defined.

(** [execute_tool] makes at most one network call, a GET, and only for a
    configured tool once the parameters are encoded and the session is
    open.  The URL is the configured one as it is when there are no
    parameters, and otherwise the configured one, a question mark and the
    encoded parameters; a tool configured without a URL is then requested
    at ["None?..."]. *)
Theorem execute_tool_requests_the_configured_url
    (CLOUD_FUNCTIONS : gmap string (option string)) (env : ToolEnv)
    (tool_name : string) (params : list (string * pyval)) :
  let trace := (execute_tool CLOUD_FUNCTIONS env tool_name params).1 in
  (length trace ≤ 1)%nat
  ∧ ∀ url, EvGet url ∈ trace →
      ∃ base_url query_string,
        CLOUD_FUNCTIONS !! tool_name = Some base_url
        ∧ urlencode env params = Ok query_string
        ∧ ClientSession env = Ok tt
        ∧ trace = [EvGet url]
        ∧ (params = [] → url = base_url)
        ∧ (params ≠ [] →
           url = Some (match base_url with Some u => u | None => "None" end
                       +:+ "?" +:+ query_string)).
Proof.
  cbn zeta. unfold_execute_tool.
  destruct (CLOUD_FUNCTIONS !! tool_name) as [base_url|]; simpl;
    [|split; [lia | by intros url ?%elem_of_nil]].
  destruct (urlencode env params) as [q|e] eqn:Hq; simpl;
    [|destruct (is_ClientError e); simpl;
      (split; [lia | by intros url ?%elem_of_nil])].
  destruct (ClientSession env) as [[]|e] eqn:Hs; simpl;
    [|destruct (is_ClientError e); simpl;
      (split; [lia | by intros url ?%elem_of_nil])].
  assert (∀ url, url = function_url params base_url q →
                 (params = [] → url = base_url)
                 ∧ (params ≠ [] →
                    url = Some (match base_url with
                                | Some u => u | None => "None" end
                                +:+ "?" +:+ q))) as Hurl.
  { intros url ->. unfold function_url. by destruct params. }
  repeat case_answer;
    (split; [simpl; lia|]);
    intros url [= ->]%list_elem_of_singleton;
    exists base_url, q; (split; [done|]); (split; [done|]); (split; [done|]);
    (split; [done|]); by apply Hurl.
Qed.

(** A tool whose environment variable is not set, called with a
    parameter. *)
Lemma execute_tool_requests_the_configured_url_witness :
  ∃ base_url query_string,
    unset_tool !! "search" = Some base_url
    ∧ urlencode (endpoint (Ok response_weather)) [("q", PStr "x")]
      = Ok query_string
    ∧ ClientSession (endpoint (Ok response_weather)) = Ok tt
    ∧ (execute_tool unset_tool (endpoint (Ok response_weather)) "search"
         [("q", PStr "x")]).1
      = [EvGet (Some "None?q=x")].
Proof.
  destruct (execute_tool_requests_the_configured_url unset_tool
              (endpoint (Ok response_weather)) "search" [("q", PStr "x")])
    as [_ Hurl].
  destruct (Hurl (Some "None?q=x")) as (b & q & Hb & Hq & Hs & Ht & _).
  - vm_compute. left.
  - exists b, q. split; [exact Hb|]. split; [exact Hq|].
    split; [exact Hs | exact Ht].
Defined.

End ExecutorProps.

(* ===================================================================== *)
(** * Two invocations at once                                            *)
(* ===================================================================== *)

Module RaceProps.
Import Summary Runs Race Inputs SummaryProps CoordinatorProps.

Lemma feed_keeps_rest (texts : list string) (self : IncrementalSummaryManager) :
  _lock (feed texts self) = _lock self
  ∧ _last_update_ts (feed texts self) = _last_update_ts self.
Proof.
  unfold feed. revert self.
  induction texts as [|text texts IH]; intros self; [done|]. simpl.
  destruct (IH (add_transcript text self)) as [-> ->].
  apply add_transcript_keeps_rest.
Qed.

(** [maybe_update_locked] is what [maybe_update] does after the
    pre-checks, when the lock is free. *)
Lemma maybe_update_goes_on_locked (cfg : Settings) (env : CallEnv)
    (api : ApiConfig) (self : IncrementalSummaryManager) :
  INCREMENTAL_UPDATES_ENABLED cfg = true →
  INCREMENTAL_SUMMARY_INTERVAL_SEC cfg
    ≤ now_check (clock env) - _last_update_ts self →
  transcript_buffer self ≠ [] →
  _lock self = false →
  maybe_update cfg env api self = Some (maybe_update_locked cfg env api self).
Proof.
  intros Hflag Ht Hbuf Hlock. unfold maybe_update, maybe_update_locked.
  cbv zeta beta. rewrite Hflag, Hlock. simpl negb. cbn match.
  apply Z.ltb_ge in Ht. rewrite Ht, (bool_decide_eq_false_2 _ Hbuf).
  cbn [_last_update_ts with_lock].
  destruct (now_locked _ - _ <? _); [done|].
  by destruct (out_result (_update_summary_locked cfg env api _)).
Qed.

(** Claim C9, as stated, fails.  The winner's send raises, so its cycle
    leaves the time stamp at 0; a fragment arrives while the cycle waits,
    so the loser, invoked 10 ticks after the winner, passes the pre-checks
    and waits for the lock; once it has the lock the re-check passes too,
    and it runs a second cycle, which replaces the summary and sets the time
    stamp to 115.  This is also what [maybe_update] does when called on the
    manager as the winner leaves it. *)
Lemma loser_runs_second_cycle_after_failed_send :
  let w := env_at 100 (Some 7%nat) (Ok (Some "Summary: X, Y."))
             (Raise (ClientError "closed")) in
  let l := env_at 110 (Some 7%nat) (Ok (Some "Summary: X, Y, Z.")) (Ok tt) in
  let fed := ["Slide 3 covers Z."] in
  let self := manager_with "" slides in
  maybe_update defaults l api0 (feed fed (mid_cycle self)) = None
  ∧ ∃ ow ol,
      two_invocations defaults w l fed api0 self = Some (ow, ol)
      ∧ maybe_update defaults l (out_api ow) (feed fed (out_self ow)) = Some ol
      ∧ cycles (out_trace ow) = 1%nat
      ∧ running_summary (feed fed (out_self ow)) = "Summary: X, Y."
      ∧ _last_update_ts (feed fed (out_self ow)) = 0
      ∧ cycles (out_trace ol) = 1%nat
      ∧ running_summary (out_self ol) = "Summary: X, Y, Z."
      ∧ _last_update_ts (out_self ol) = 115.
Proof.
  cbn zeta. split; [vm_compute; reflexivity|].
  eexists _, _. split; [vm_compute; reflexivity|].
  split; [vm_compute; reflexivity|]. done.
Qed.

(** Claim C9, amended.  Take a call of [maybe_update] that finds the lock
    free, passes the checks and runs a cycle with a live session, and a
    second call invoked while that cycle waits for the text generation,
    whatever fragments arrive meanwhile.  If the winner's cycle returns
    without raising, and the loser reads the clock under the lock less than
    the interval after the winner's cycle ended, then exactly one cycle
    runs: the loser makes no call to the outside and leaves the manager and
    the API configuration as the winner left them. *)
Theorem loser_has_no_effect_when_winner_returns
    (cfg : Settings) (w l : CallEnv) (fed : list string) (api : ApiConfig)
    (self : IncrementalSummaryManager) (session : handle) :
  INCREMENTAL_UPDATES_ENABLED cfg = true →
  INCREMENTAL_SUMMARY_INTERVAL_SEC cfg
    ≤ now_check (clock w) - _last_update_ts self →
  INCREMENTAL_SUMMARY_INTERVAL_SEC cfg
    ≤ now_locked (clock w) - _last_update_ts self →
  transcript_buffer self ≠ [] →
  _lock self = false →
  genai_session_of (sessions w) self = Some session →
  out_result (_update_summary_locked cfg w api (with_lock true self)) = Ok tt →
  now_locked (clock l) - now_done (clock w)
    < INCREMENTAL_SUMMARY_INTERVAL_SEC cfg →
  ∃ ow ol,
    two_invocations cfg w l fed api self = Some (ow, ol)
    ∧ cycles (out_trace ow) = 1%nat
    ∧ out_trace ol = []
    ∧ out_result ol = Ok tt
    ∧ out_self ol = feed fed (out_self ow)
    ∧ out_api ol = out_api ow.
Proof.
  intros Hflag Ht1 Ht2 Hbuf Hlock _ Hok Hnear.
  unfold two_invocations.
  rewrite (maybe_update_open cfg w api self Hflag Ht1 Ht2 Hbuf Hlock).
  cbn zeta. rewrite Hok.
  set (ow := {| out_self := _; out_api := _; out_trace := _;
                out_result := _ |}).
  exists ow.
  assert (cycles (out_trace ow) = 1%nat) as Hone.
  { subst ow. cbn [out_trace].
    change (EvCycle :: ?t) with ([EvCycle] ++ t).
    by rewrite cycles_app, cycle_trace_cycles. }
  destruct (maybe_update cfg l (out_api ow) (feed fed (mid_cycle self)))
    as [o|].
  - eexists. split; [done|]. done.
  - eexists. split; [done|]. split; [done|].
    unfold maybe_update_locked. cbv zeta.
    cbn [_last_update_ts with_lock].
    rewrite (proj2 (feed_keeps_rest fed (out_self ow))). subst ow. cbn [out_self _last_update_ts with_lock
                                 with_last_update_ts].
    apply Z.ltb_lt in Hnear. rewrite Hnear. cbn [out_trace out_result out_self
                                                   out_api].
    split; [done|]. split; [done|]. split; [|done].
    rewrite with_lock_twice. apply with_lock_same.
    by rewrite (proj1 (feed_keeps_rest _ _)).
Qed.

(** The winner's send returns; a fragment arrives while its cycle waits,
    and the loser, invoked 10 ticks after the winner, waits for the lock:
    it finds the time stamp at 105 and returns. *)
Lemma loser_has_no_effect_when_winner_returns_witness :
  let w := env_at 100 (Some 7%nat) (Ok (Some "Summary: X, Y.")) (Ok tt) in
  let l := env_at 110 (Some 7%nat) (Ok (Some "Summary: X, Y, Z.")) (Ok tt) in
  let fed := ["Slide 3 covers Z."] in
  let self := manager_with "" slides in
  maybe_update defaults l api0 (feed fed (mid_cycle self)) = None
  ∧ ∃ ow ol,
      two_invocations defaults w l fed api0 self = Some (ow, ol)
      ∧ cycles (out_trace ow) = 1%nat
      ∧ out_trace ol = []
      ∧ out_self ol = feed fed (out_self ow).
Proof.
  split; [vm_compute; reflexivity|].
  destruct (loser_has_no_effect_when_winner_returns defaults
              (env_at 100 (Some 7%nat) (Ok (Some "Summary: X, Y.")) (Ok tt))
              (env_at 110 (Some 7%nat) (Ok (Some "Summary: X, Y, Z.")) (Ok tt))
              ["Slide 3 covers Z."] api0 (manager_with "" slides) 7%nat)
    as (ow & ol & Hrun & Hone & Htrace & _ & Hself & _);
    [reflexivity | done | done | discriminate | reflexivity | reflexivity
    | vm_compute; reflexivity | done |].
  exists ow, ol. split; [exact Hrun|]. split; [exact Hone|].
  split; [exact Htrace | exact Hself].
Defined.

End RaceProps.
